(** * FlashKeyStore: the PIN-gated secret store of [src/keystore/flash.py]

    A shallow embedding of the MicroPython module [keystore/flash.py]: the key
    derivation [derive_keys] and the class [FlashKeyStore], whose methods read
    and write the files [secret], [pin.json], [pin.json.sig], [reckless] and
    [reckless.sig] below the store's directory.

    Conventions of the embedding.
    - A Python [bytes] object and a Python [str] are both a [string] (a
      sequence of 8-bit characters); a [str] is represented by its UTF-8
      encoding, so [.encode()] is the identity and [.decode()] checks
      validity.
    - A Python [dict] is a [gmap] with [string] keys.
    - A method is a computation of the monad [M]: it reads and updates the
      object and the flash and either returns or raises.  What a method did
      before it raised stays done, as in Python.
    - The libraries the module calls (hashlib, hmac, json, the elliptic-curve
      and BIP-39/BIP-32 code, the cipher of [helpers]) are the fields of the
      class [Collaborators]; their contracts are separate, named
      hypotheses. *)

From Stdlib Require Import ZArith String Ascii List Lia DecimalString.
From stdpp Require Import base option gmap strings list countable.

Local Open Scope Z_scope.

(** ** Python values and exceptions *)

(** The exception classes the module raises or lets through.  [KeyStoreError]
    and [PinError] come from [keystore/core.py],
    [CriticalErrorWipeImmediately] from [platform.py]; the others are
    built in. *)
Inductive exn : Type :=
| KeyStoreError (msg : string)
| PinError (msg : string)
| CriticalErrorWipeImmediately (msg : string)
| OSError (msg : string)
| KeyError (key : string)
| TypeError (msg : string)
| AttributeError (msg : string)
| ValueError (msg : string)
| IndexError (msg : string)
| ZeroDivisionError (msg : string)
| UnicodeError (msg : string).

(** [str(e)], as the ["%s" % e] of [load_state] prints it. *)
Definition exn_str (e : exn) : string :=
  match e with
  | KeyStoreError m | PinError m | CriticalErrorWipeImmediately m
  | OSError m | TypeError m | AttributeError m | ValueError m
  | IndexError m | ZeroDivisionError m | UnicodeError m => m
  | KeyError k => k
  end.

(** Is the exception the fatal one, after which the device is gone? *)
Definition is_fatal (e : exn) : bool :=
  match e with CriticalErrorWipeImmediately _ => true | _ => false end.

Inductive result (A : Type) : Type :=
| Ok (a : A)
| Raise (e : exn).
Arguments Ok {A} a.
Arguments Raise {A} e.

(** The line feed of the messages. *)
Definition nl : string := String (ascii_of_nat 10) EmptyString.

(** [ec.PrivateKey]: the object wraps the 32 bytes it was built from. *)
Record PrivateKey : Type := ec_PrivateKey { pk_secret : string }.

(** A value of the [keys] dictionary: a digest or a private key. *)
Inductive kval : Type :=
| KBytes (b : string)
| KPriv (k : PrivateKey).

(** A value of the PIN-state dictionary, as [json] reads it back: [None], an
    integer or a string.  (The module writes no other kind.) *)
Inductive jval : Type :=
| JNull
| JInt (n : Z)
| JStr (s : string).

#[global] Instance jval_eq_dec : EqDecision jval.
Proof. solve_decision. Defined.

(** ** The collaborators *)

(** The library functions the module calls.  A public key and a signature
    are represented by their serialisations, an [HDKey] by the opaque bytes
    that identify it. *)
Class Collaborators : Type := {
  (** [hashlib.sha256(data).digest()] *)
  sha256 : string -> string;
  (** [hmac.new(key, msg, digestmod="sha256").digest()] *)
  hmac_sha256 : string -> string -> string;
  (** [key.sign(h)] *)
  ec_sign : PrivateKey -> string -> string;
  (** [key.get_public_key()] *)
  ec_get_public_key : PrivateKey -> string;
  (** [pub.verify(sig, h)] *)
  ec_verify : string -> string -> string -> bool;
  (** [sig.serialize()] and [ec.Signature.parse(bytes)] *)
  sig_serialize : string -> string;
  sig_parse : string -> result string;
  (** [helpers.encrypt(data, key)] and [helpers.decrypt(data, key)] *)
  encrypt : string -> string -> string;
  decrypt : string -> string -> string;
  (** [json.dumps] and [json.loads] on the PIN state ([None] is JSON null) *)
  json_dumps : option (gmap string jval) -> string;
  json_loads : string -> result (option (gmap string jval));
  (** whether [bytes.decode()] accepts the bytes *)
  utf8_valid : string -> bool;
  (** [bip39.mnemonic_is_valid], [bip39.mnemonic_to_seed], [bip39.WORDLIST] *)
  mnemonic_is_valid : string -> bool;
  mnemonic_to_seed : string -> string -> string;
  WORDLIST : list string;
  (** [bip32.HDKey.from_seed], [.child(i, hardened)], [.fingerprint], [.key] *)
  hd_from_seed : string -> string;
  hd_child : string -> Z -> bool -> string;
  hd_fingerprint : string -> string;
  hd_key : string -> PrivateKey;
}.

(** ** Helpers of the interpreter *)

(** [binascii.hexlify]: two lower-case hexadecimal digits per byte. *)
Definition hex_digit (n : N) : ascii :=
  ascii_of_N (if (n <? 10)%N then 48 + n else 87 + n)%N.

Fixpoint hexlify (s : string) : string :=
  match s with
  | EmptyString => EmptyString
  | String c s' =>
      let n := N_of_ascii c in
      String (hex_digit (n / 16)) (String (hex_digit (n mod 16)) (hexlify s'))
  end.

(** [int.from_bytes(s, 'big')] *)
Definition int_from_bytes_big (s : string) : Z :=
  fold_left (fun acc c => 256 * acc + Z.of_N (N_of_ascii c)) (list_ascii_of_string s) 0.

(** The slice [h[:n]]. *)
Definition slice_to (n : nat) (s : string) : string := String.substring 0 n s.

(** ["%d" % n] *)
Definition fmt_d (n : Z) : string := NilZero.string_of_int (Z.to_int n).

(** [str.strip()]: the white space of MicroPython's [unichar_isspace]. *)
Definition is_space (c : ascii) : bool :=
  let n := N_of_ascii c in ((n =? 32) || ((9 <=? n) && (n <=? 13)))%N.

Fixpoint lstrip (s : string) : string :=
  match s with
  | String c s' => if is_space c then lstrip s' else s
  | EmptyString => EmptyString
  end.

Definition strip (s : string) : string :=
  String.rev (lstrip (String.rev (lstrip s))).

(** [bytes.decode()] *)
Definition bytes_decode `{Collaborators} (b : string) : result string :=
  if utf8_valid b then Ok b else Raise (UnicodeError "invalid UTF-8").

(** ** Key derivation *)

Section derive.
Context `{Collaborators}.

(** [derive_keys(secret, pin=None)] *)
Definition derive_keys (secret : string) (pin : option string) : gmap string kval :=
  let keys : gmap string kval :=
    {[ "secret" := KBytes secret;
       "ecdsa" := KPriv (ec_PrivateKey (sha256 ("ecdsa" +:+ secret)));
       "hmac" := KBytes (sha256 ("hmac" +:+ secret));
       "auth" := KBytes (sha256 ("auth" +:+ secret)) ]} in
  match pin with
  | None => keys
  | Some pin =>
      let pin_key := sha256 (("keys" +:+ secret) +:+ pin) in
      let keys := <["pin_aes" := KBytes (sha256 ("aes" +:+ pin_key))]> keys in
      let keys := <["pin_hmac" := KBytes (sha256 ("hmac" +:+ pin_key))]> keys in
      <["pin_ecdsa" := KPriv (ec_PrivateKey (sha256 ("ecdsa" +:+ pin_key)))]> keys
  end.

End derive.

(** ** The object, the flash and the monad of methods *)

(** The attributes [__init__] creates. *)
Record FlashKeyStore : Type := mkFlashKeyStore {
  path : string;
  _is_locked : bool;
  mnemonic : option string;
  root : option string;
  fingerprint : option string;
  idkey : option PrivateKey;
  state : option (gmap string jval);
  keys : gmap string kval;
}.

(** [FlashKeyStore(path)] *)
Definition __init__ (p : string) : FlashKeyStore :=
  {| path := p; _is_locked := true; mnemonic := None; root := None;
     fingerprint := None; idkey := None; state := None; keys := ∅ |}.

(** The object together with the files of the flash, by full path. *)
Record world : Type := mkWorld {
  self : FlashKeyStore;
  flash : gmap string string;
}.

Definition M (A : Type) : Type := world -> result A * world.

#[global] Instance M_ret : MRet M := fun A a w => (Ok a, w).
#[global] Instance M_bind : MBind M := fun A B k m w =>
  match m w with
  | (Ok a, w') => k a w'
  | (Raise e, w') => (Raise e, w')
  end.

Definition raise {A} (e : exn) : M A := fun w => (Raise e, w).

(** [try: m  except Exception as e: h e] *)
Definition try_except {A} (m : M A) (h : exn -> M A) : M A := fun w =>
  match m w with
  | (Raise e, w') => h e w'
  | r => r
  end.

Definition lift {A} (r : result A) : M A := fun w => (r, w).

Definition get_self : M FlashKeyStore := fun w => (Ok (self w), w).

Definition update_self (f : FlashKeyStore -> FlashKeyStore) : M unit := fun w =>
  (Ok tt, {| self := f (self w); flash := flash w |}).

Definition set__is_locked (b : bool) (s : FlashKeyStore) : FlashKeyStore :=
  {| path := path s; _is_locked := b; mnemonic := mnemonic s; root := root s;
     fingerprint := fingerprint s; idkey := idkey s; state := state s; keys := keys s |}.

Definition set_mnemonic (m : option string) (s : FlashKeyStore) : FlashKeyStore :=
  {| path := path s; _is_locked := _is_locked s; mnemonic := m; root := root s;
     fingerprint := fingerprint s; idkey := idkey s; state := state s; keys := keys s |}.

Definition set_root (r f : string) (k : PrivateKey) (s : FlashKeyStore) : FlashKeyStore :=
  {| path := path s; _is_locked := _is_locked s; mnemonic := mnemonic s; root := Some r;
     fingerprint := Some f; idkey := Some k; state := state s; keys := keys s |}.

Definition set_state (st : option (gmap string jval)) (s : FlashKeyStore) : FlashKeyStore :=
  {| path := path s; _is_locked := _is_locked s; mnemonic := mnemonic s; root := root s;
     fingerprint := fingerprint s; idkey := idkey s; state := st; keys := keys s |}.

Definition set_keys (ks : gmap string kval) (s : FlashKeyStore) : FlashKeyStore :=
  {| path := path s; _is_locked := _is_locked s; mnemonic := mnemonic s; root := root s;
     fingerprint := fingerprint s; idkey := idkey s; state := state s; keys := ks |}.

(** *** The storage layer *)

(** [open(p, "rb").read()]: a missing file raises. *)
Definition file_read (p : string) : M string := fun w =>
  match flash w !! p with
  | Some d => (Ok d, w)
  | None => (Raise (OSError "ENOENT"), w)
  end.

(** [open(p, "wb").write(d)]: creates or overwrites. *)
Definition file_write (p d : string) : M unit := fun w =>
  (Ok tt, {| self := self w; flash := <[p := d]> (flash w) |}).

(** Modelled from the spec: [platform.file_exists] is not among the sources;
    the spec's storage contract has [exists(path) -> bool]. *)
Definition file_exists (p : string) : M bool := fun w =>
  (Ok (bool_decide (is_Some (flash w !! p))), w).

(** Modelled from the spec: [platform.delete_recursively] is not among the
    sources; the spec's storage contract has [wipeRecursively(path)], and
    [wipe]'s docstring says "Delete everything in path": every file below the
    directory goes. *)
Definition delete_recursively_files (p : string) (fs : gmap string string) : gmap string string :=
  filter (fun kv => String.prefix (p +:+ "/") kv.1 = false) fs.

(** [platform.delete_recursively(p)] as a statement of a method. *)
Definition delete_recursively (p : string) : M unit := fun w =>
  (Ok tt, {| self := self w; flash := delete_recursively_files p (flash w) |}).

(** Modelled from the spec: [platform.maybe_mkdir] is not among the sources;
    the spec's storage contract has [mkdirIfAbsent(path)].  Files are kept by
    full path here, so there is nothing to create. *)
Definition maybe_mkdir (p : string) : M unit := mret tt.

(** *** Subscripts and operators of Python *)

(** [self.keys[k]] *)
Definition keys_get (k : string) : M kval :=
  s ← get_self;
  match keys s !! k with
  | Some v => mret v
  | None => raise (KeyError k)
  end.

(** [self.state[k]] *)
Definition state_get (k : string) : M jval :=
  s ← get_self;
  match state s with
  | None => raise (TypeError "'NoneType' object isn't subscriptable")
  | Some st =>
      match st !! k with
      | Some v => mret v
      | None => raise (KeyError k)
      end
  end.

(** [self.state[k] = v] *)
Definition state_set (k : string) (v : jval) : M unit :=
  s ← get_self;
  match state s with
  | None => raise (TypeError "'NoneType' object doesn't support item assignment")
  | Some st => update_self (set_state (Some (<[k := v]> st)))
  end.

(** A value used where [bytes] are needed. *)
Definition as_bytes (v : kval) : M string :=
  match v with
  | KBytes b => mret b
  | KPriv _ => raise (TypeError "object with buffer protocol required")
  end.

(** A value used as a private key: [bytes] have no [sign] or
    [get_public_key]. *)
Definition as_key (v : kval) : M PrivateKey :=
  match v with
  | KPriv k => mret k
  | KBytes _ => raise (AttributeError "'bytes' object has no attribute")
  end.

(** [v - 1] *)
Definition py_sub1 (v : jval) : M jval :=
  match v with
  | JInt n => mret (JInt (n - 1))
  | _ => raise (TypeError "unsupported types for __sub__")
  end.

(** [v <= 0] *)
Definition py_le0 (v : jval) : M bool :=
  match v with
  | JInt n => mret (bool_decide (n <= 0))
  | _ => raise (TypeError "unsupported types for __le__")
  end.

(** ["%d" % v] *)
Definition py_fmt_d (v : jval) : M string :=
  match v with
  | JInt n => mret (fmt_d n)
  | _ => raise (TypeError "can't convert to int")
  end.

(** ** The methods of [FlashKeyStore] *)

Section methods.
Context `{Collaborators}.

(** [load_mnemonic(mnemonic=None, password="")] *)
Definition load_mnemonic (mnemonic_arg : option string) (password : string) : M unit :=
  match mnemonic_arg with
  | Some m =>
      update_self (set_mnemonic (Some (strip m)));;
      if mnemonic_is_valid (strip m) then mret tt
      else raise (KeyStoreError "Invalid mnemonic")
  | None => mret tt
  end;;
  s ← get_self;
  match mnemonic s with
  | None => raise (AttributeError "'NoneType' object has no attribute")
  | Some m =>
      let seed := mnemonic_to_seed m password in
      let r := hd_from_seed seed in
      update_self (set_root r (hd_fingerprint (hd_child r 0 false))
                              (hd_key (hd_child r 29 true)))
  end.

(** The [key] argument of [sign_to_file] and [verify_file] after its
    default: [self.idkey] when none is passed. *)
Definition key_or_idkey (key : option kval) (s : FlashKeyStore) : option kval :=
  match key with
  | None => KPriv <$> idkey s
  | Some k => Some k
  end.

(** [sign_to_file(data, path, key=None)]: writes the signature of [data],
    and nothing else, to [path]. *)
Definition sign_to_file (data p : string) (key : option kval) : M unit :=
  s ← get_self;
  match key_or_idkey key s with
  | None => raise (KeyStoreError "Pass the key please")
  | Some key =>
      let h := sha256 data in
      k ← as_key key;
      file_write p (sig_serialize (ec_sign k h))
  end.

(** [verify_file(path, key=None)] *)
Definition verify_file (p : string) (key : option kval) : M string :=
  s ← get_self;
  match key_or_idkey key s with
  | None => raise (KeyStoreError "Pass the key please")
  | Some key =>
      data ← file_read p;
      let h := sha256 data in
      sigb ← file_read (p +:+ ".sig");
      sig ← lift (sig_parse sigb);
      k ← as_key key;
      let pub := ec_get_public_key k in
      if ec_verify pub sig h then mret data
      else raise (KeyStoreError "Signature is invalid!")
  end.

(** [wipe(path)] *)
Definition wipe (p : string) : M unit := delete_recursively p.

(** The [try] block of [load_state]: verify the PIN file and load the PIN
    state from it. *)
Definition load_state_try : M unit :=
  s ← get_self;
  k ← keys_get "ecdsa";
  data ← verify_file (path s +:+ "/pin.json") (Some k);
  text ← lift (bytes_decode data);
  st ← lift (json_loads text);
  update_self (set_state st).

(** The message of the fatal error of [load_state]. *)
Definition wiped_msg (e : exn) : string :=
  "Something went terribly wrong!" +:+ nl +:+ "Device is wiped!" +:+ nl +:+ exn_str e.

(** [load_state()] *)
Definition load_state : M unit :=
  try_except load_state_try
    (fun e =>
     s ← get_self;
     wipe (path s);;
     raise (CriticalErrorWipeImmediately (wiped_msg e))).

(** The default PIN state of [create_new_secret]. *)
Definition default_state : gmap string jval :=
  {[ "pin" := JNull; "pin_attempts_left" := JInt 10; "pin_attempts_max" := JInt 10 ]}.

(** [create_new_secret(path)]; [rnd] is what [get_random_bytes(32)]
    returns. *)
Definition create_new_secret (rnd : string) (p : string) : M string :=
  let secret := rnd in
  file_write (p +:+ "/secret") secret;;
  let data := json_dumps (Some default_state) in
  signing_key ← match derive_keys secret None !! "ecdsa" with
                | Some k => mret k
                | None => raise (KeyError "ecdsa")
                end;
  sign_to_file data (p +:+ "/pin.json.sig") (Some signing_key);;
  file_write (p +:+ "/pin.json") data;;
  mret secret.

(** [load_secret(path)] *)
Definition load_secret (rnd : string) (p : string) : M unit :=
  secret ← try_except (file_read (p +:+ "/secret"))
                      (fun _ => create_new_secret rnd p);
  update_self (fun s => set_keys (derive_keys secret None ∪ keys s) s).

(** [init()] *)
Definition init (rnd : string) : M unit :=
  s ← get_self;
  maybe_mkdir (path s);;
  load_secret rnd (path s);;
  load_state.

(** The property [is_pin_set] *)
Definition is_pin_set : M bool :=
  v ← state_get "pin";
  mret (bool_decide (v ≠ JNull)).

(** The properties [pin_attempts_left] and [pin_attempts_max] *)
Definition pin_attempts_left : M jval := state_get "pin_attempts_left".
Definition pin_attempts_max : M jval := state_get "pin_attempts_max".

(** The property [is_locked] *)
Definition is_locked : M bool :=
  b ← is_pin_set;
  if b : bool then s ← get_self; mret (_is_locked s) else mret false.

(** [save_state()] *)
Definition save_state : M unit :=
  s ← get_self;
  let data := json_dumps (state s) in
  file_write (path s +:+ "/pin.json") data;;
  k ← keys_get "ecdsa";
  sign_to_file data (path s +:+ "/pin.json.sig") (Some k);;
  load_state.

(** The message of the [PinError] of [unlock]. *)
Definition pin_error_msg (left_ max_ : string) : string :=
  "Invalid PIN!" +:+ nl +:+ left_ +:+ " of " +:+ max_ +:+ " attempts left...".

(** The hexadecimal tag [hexlify(hmac.new(key, msg=pin).digest()).decode()] *)
Definition pin_tag (hmac_key pin : string) : string :=
  hexlify (hmac_sha256 hmac_key pin).

(** [unlock(pin)] *)
Definition unlock (pin : string) : M unit :=
  v ← state_get "pin_attempts_left";
  v' ← py_sub1 v;
  state_set "pin_attempts_left" v';;
  save_state;;
  left_ ← state_get "pin_attempts_left";
  out ← py_le0 left_;
  if out : bool then
    s ← get_self;
    wipe (path s);;
    raise (CriticalErrorWipeImmediately ("No more PIN attempts!" +:+ nl +:+ "Wipe!"))
  else
    hk ← keys_get "hmac";
    hk ← as_bytes hk;
    let pin_hmac := pin_tag hk pin in
    tag ← state_get "pin";
    if bool_decide (JStr pin_hmac ≠ tag) then
      left_ ← state_get "pin_attempts_left";
      max_ ← state_get "pin_attempts_max";
      l ← py_fmt_d left_;
      m ← py_fmt_d max_;
      raise (PinError (pin_error_msg l m))
    else
      max_ ← state_get "pin_attempts_max";
      state_set "pin_attempts_left" max_;;
      update_self (set__is_locked false);;
      save_state;;
      sec ← keys_get "secret";
      sec ← as_bytes sec;
      update_self (fun s => set_keys (derive_keys sec (Some pin) ∪ keys s) s).

(** [lock()] *)
Definition lock : M bool :=
  update_self (set__is_locked true);;
  is_locked.

(** [unset_pin()] *)
Definition unset_pin : M unit :=
  state_set "pin" JNull;;
  save_state.

(** [set_pin(pin)] *)
Definition set_pin (pin : string) : M unit :=
  hk ← keys_get "hmac";
  hk ← as_bytes hk;
  state_set "pin" (JStr (pin_tag hk pin));;
  save_state;;
  unlock pin.

(** [change_pin(old_pin, new_pin)] *)
Definition change_pin (old_pin new_pin : string) : M unit :=
  unlock old_pin;;
  s ← get_self;
  ex ← file_exists (path s +:+ "/reckless");
  data ← (if ex : bool then
            k ← keys_get "pin_ecdsa";
            data ← verify_file (path s +:+ "/reckless") (Some k);
            a ← keys_get "pin_aes";
            a ← as_bytes a;
            mret (Some (decrypt data a))
          else mret None);
  set_pin new_pin;;
  match data with
  | Some data =>
      a ← keys_get "pin_aes";
      a ← as_bytes a;
      let ct := encrypt data a in
      file_write (path s +:+ "/reckless") ct;;
      k ← keys_get "pin_ecdsa";
      sign_to_file ct (path s +:+ "/reckless.sig") (Some k)
  | None => mret tt
  end.

(** [get_auth_word(pin_part)] *)
Definition get_auth_word (pin_part : string) : M string :=
  a ← keys_get "auth";
  a ← as_bytes a;
  let h := hmac_sha256 a pin_part in
  let len := Z.of_nat (length WORDLIST) in
  if bool_decide (len = 0) then raise (ZeroDivisionError "divide by zero")
  else
    let word_number := int_from_bytes_big (slice_to 2 h) `mod` len in
    match WORDLIST !! Z.to_nat word_number with
    | Some w => mret w
    | None => raise (IndexError "list index out of range")
    end.

(** [load()] *)
Definition load : M unit :=
  lk ← is_locked;
  if lk : bool then raise (KeyStoreError "Keystore is locked")
  else
    s ← get_self;
    ex ← file_exists (path s +:+ "/reckless");
    if negb ex then raise (KeyStoreError "Key is not saved")
    else
      k ← keys_get "pin_ecdsa";
      data ← verify_file (path s +:+ "/reckless") (Some k);
      a ← keys_get "pin_aes";
      a ← as_bytes a;
      m ← lift (bytes_decode (decrypt data a));
      load_mnemonic (Some m) "".

(** [save()] *)
Definition save : M unit :=
  lk ← is_locked;
  if lk : bool then raise (KeyStoreError "Keystore is locked")
  else
    s ← get_self;
    match mnemonic s with
    | None => raise (KeyStoreError "Recovery phrase is not loaded")
    | Some m =>
        a ← keys_get "pin_aes";
        a ← as_bytes a;
        let ct := encrypt m a in
        file_write (path s +:+ "/reckless") ct;;
        k ← keys_get "pin_ecdsa";
        sign_to_file ct (path s +:+ "/reckless.sig") (Some k);;
        load
    end.

End methods.

(** ** Worlds the statements speak of

    The store's directory never changes, so the worlds below take it as
    the parameter [p]; the statements assume [path (self w) = p]. *)

(** The flash after [wipe(p)]. *)
Definition wiped (p : string) (w : world) : world :=
  {| self := self w; flash := delete_recursively_files p (flash w) |}.

(** The flash after the two writes of [save_state]: [pin.json] holds the
    dump of the state [st] and [pin.json.sig] the signature of it under
    [k]. *)
Definition saved `{Collaborators} (p : string) (k : PrivateKey)
    (st : option (gmap string jval)) (fs : gmap string string) : gmap string string :=
  <[p +:+ "/pin.json.sig" := sig_serialize (ec_sign k (sha256 (json_dumps st)))]>
    (<[p +:+ "/pin.json" := json_dumps st]> fs).

(** The world in which [self.state] is the dictionary [st] and that state
    is saved. *)
Definition persisted `{Collaborators} (p : string) (k : PrivateKey)
    (st : gmap string jval) (w : world) : world :=
  {| self := set_state (Some st) (self w); flash := saved p k (Some st) (flash w) |}.

(** The world after the first two statements of [unlock]: the counter is
    one less and the state is saved. *)
Definition decremented `{Collaborators} (p : string) (k : PrivateKey)
    (st : gmap string jval) (n : Z) (w : world) : world :=
  persisted p k (<["pin_attempts_left" := JInt (n - 1)]> st) w.

(** The world after an [unlock] that went through: the counter is back at
    [vmax], the lock is open, the state is saved again and the keys bound to
    the PIN are merged into [self.keys]. *)
Definition unlocked `{Collaborators} (p : string) (k : PrivateKey)
    (st : gmap string jval) (n : Z) (vmax : jval) (sec pin : string) (w : world) : world :=
  let st1 := <["pin_attempts_left" := JInt (n - 1)]> st in
  let st2 := <["pin_attempts_left" := vmax]> st1 in
  {| self := set_keys (derive_keys sec (Some pin) ∪ keys (self w))
               (set__is_locked false (set_state (Some st2) (self w)));
     flash := saved p k (Some st2) (saved p k (Some st1) (flash w)) |}.

(** A secret is loaded: [self.keys] holds the keys [load_secret] derives
    from it. *)
Definition secret_loaded `{Collaborators} (secret : string) (w : world) : Prop :=
  derive_keys secret None ⊆ keys (self w).

(** The same world with another PIN state and another lock flag. *)
Definition with_pin_state (st : option (gmap string jval)) (lk : bool) (w : world) : world :=
  {| self := set__is_locked lk (set_state st (self w)); flash := flash w |}.

(** A fresh object over the flash of [w]: what is left of [w] after a power
    loss. *)
Definition rebooted (s0 : FlashKeyStore) (w : world) : world :=
  {| self := s0; flash := flash w |}.

(** A caller that tries the PINs of [pins] one after the other and goes on
    after each exception; it returns what every call returned or raised. *)
Fixpoint attempts `{Collaborators} (pins : list string) (w : world)
    : list (result unit) * world :=
  match pins with
  | [] => ([], w)
  | pin :: pins' =>
      let (r, w1) := unlock pin w in
      let (rs, w2) := attempts pins' w1 in
      (r :: rs, w2)
  end.

(** The world after [j] calls of [unlock] that each only got as far as the
    decrement and the save. *)
Fixpoint failed `{Collaborators} (j : nat) (p : string) (k : PrivateKey)
    (st : gmap string jval) (n : Z) (w : world) : world :=
  match j with
  | O => w
  | S j' =>
      failed j' p k (<["pin_attempts_left" := JInt (n - 1)]> st) (n - 1)
        (decremented p k st n w)
  end.

(** What the [i]-th of these calls raises, for a counter that started at
    [n]. *)
Definition pin_error `{Collaborators} (n mx : Z) (i : nat) : result unit :=
  Raise (PinError (pin_error_msg (fmt_d (n - Z.of_nat i)) (fmt_d mx))).

(** What the call that uses up the last attempt raises. *)
Definition no_more_attempts : result unit :=
  Raise (CriticalErrorWipeImmediately ("No more PIN attempts!" +:+ nl +:+ "Wipe!")).

(** The world after [init()] on a flash without a [secret] file, when the
    generator returns [rnd]: the secret and the default PIN state are on the
    flash, the state signed with the key derived from the secret alone. *)
Definition provisioned `{Collaborators} (p rnd : string) (w : world) : world :=
  let data := json_dumps (Some default_state) in
  let k := ec_PrivateKey (sha256 ("ecdsa" +:+ rnd)) in
  {| self := set_state (Some default_state)
               (set_keys (derive_keys rnd None ∪ keys (self w)) (self w));
     flash := <[p +:+ "/pin.json" := data]>
                (<[p +:+ "/pin.json.sig" := sig_serialize (ec_sign k (sha256 data))]>
                   (<[p +:+ "/secret" := rnd]> (flash w))) |}.

(** Names for the keys [derive_keys] computes. *)
Definition base_ecdsa `{Collaborators} (secret : string) : PrivateKey :=
  ec_PrivateKey (sha256 ("ecdsa" +:+ secret)).
Definition base_hmac `{Collaborators} (secret : string) : string :=
  sha256 ("hmac" +:+ secret).
Definition pin_key_of `{Collaborators} (secret pin : string) : string :=
  sha256 (("keys" +:+ secret) +:+ pin).
Definition pin_aes_of `{Collaborators} (secret pin : string) : string :=
  sha256 ("aes" +:+ pin_key_of secret pin).
Definition pin_ecdsa_of `{Collaborators} (secret pin : string) : PrivateKey :=
  ec_PrivateKey (sha256 ("ecdsa" +:+ pin_key_of secret pin)).

(** The world after [set_pin(pin)] went through: the tag of the PIN is
    stored and saved, then [unlock(pin)] ran. *)
Definition pin_set `{Collaborators} (p : string) (k : PrivateKey) (st : gmap string jval)
    (n : Z) (vmax : jval) (hk sec pin : string) (w : world) : world :=
  let st1 := <["pin" := JStr (pin_tag hk pin)]> st in
  unlocked p k st1 n vmax sec pin (persisted p k st1 w).

(** The world after the two writes of [save] and of the end of
    [change_pin]: the blob [ct] and its signature under [kp]. *)
Definition reckless_written `{Collaborators} (p ct : string) (kp : PrivateKey) (w : world)
    : world :=
  {| self := self w;
     flash := <[p +:+ "/reckless.sig" := sig_serialize (ec_sign kp (sha256 ct))]>
                (<[p +:+ "/reckless" := ct]> (flash w)) |}.

(** The world after [change_pin(old, new)] went through on a store whose
    counter and maximum were [n] and [mx] and whose blob was [ct]. *)
Definition pin_changed `{Collaborators} (p : string) (st : gmap string jval) (n mx : Z)
    (sec old new ct : string) (w : world) : world :=
  let k := base_ecdsa sec in
  let hk := base_hmac sec in
  let w1 := unlocked p k st n (JInt mx) sec old w in
  let st1 := <["pin_attempts_left" := JInt mx]> (<["pin_attempts_left" := JInt (n - 1)]> st) in
  let w2 := pin_set p k st1 mx (JInt mx) hk sec new w1 in
  reckless_written p (encrypt (decrypt ct (pin_aes_of sec old)) (pin_aes_of sec new))
                   (pin_ecdsa_of sec new) w2.

(** The world after [load_mnemonic(m, password)] derived the root key. *)
Definition mnemonic_loaded `{Collaborators} (m password : string) (w : world) : world :=
  let r := hd_from_seed (mnemonic_to_seed (strip m) password) in
  {| self := set_root r (hd_fingerprint (hd_child r 0 false)) (hd_key (hd_child r 29 true))
               (set_mnemonic (Some (strip m)) (self w));
     flash := flash w |}.

(** The world after [load_mnemonic(m, password)] refused the mnemonic: it
    is in [self.mnemonic] all the same. *)
Definition mnemonic_refused (m : string) (w : world) : world :=
  {| self := set_mnemonic (Some (strip m)) (self w); flash := flash w |}.

(** ** The rest of the methods *)

(** [os.remove(p)]: a missing file raises. *)
Definition file_remove (p : string) : M unit := fun w =>
  match flash w !! p with
  | Some _ => (Ok tt, {| self := self w; flash := delete p (flash w) |})
  | None => (Raise (OSError "ENOENT"), w)
  end.

(** What [get_xpub] needs of [bitcoin.bip32]: [HDKey.derive(path)], which
    refuses a derivation path it cannot read, and [HDKey.to_public()]. *)
Class Derivation : Type := {
  hd_derive : string -> string -> result string;
  hd_to_public : string -> string;
}.

Section more_methods.
Context `{Collaborators}.

(** The property [is_ready] *)
Definition is_ready : M bool :=
  s ← get_self;
  match state s with
  | None => mret false
  | Some _ =>
      lk ← is_locked;
      if lk : bool then mret false
      else s ← get_self; mret (bool_decide (fingerprint s ≠ None))
  end.

(** [get_xpub(path)] *)
Definition get_xpub `{Derivation} (derivation : string) : M string :=
  lk ← is_locked;
  s ← get_self;
  if lk : bool then raise (KeyStoreError "Keystore is not ready")
  else
    match root s with
    | None => raise (KeyStoreError "Keystore is not ready")
    | Some r =>
        d ← lift (hd_derive r derivation);
        mret (hd_to_public d)
    end.

(** [delete_saved()] *)
Definition delete_saved : M unit :=
  s ← get_self;
  ex ← file_exists (path s +:+ "/reckless");
  if negb ex then
    raise (KeyStoreError "Secret is not saved. No need to delete anything.")
  else
    try_except
      (file_remove (path s +:+ "/reckless");;
       file_remove (path s +:+ "/reckless.sig"))
      (fun _ => raise (KeyStoreError "Failed to delete from memory")).

End more_methods.

(** The flash without the blob and its signature. *)
Definition blob_deleted (p : string) (w : world) : world :=
  {| self := self w;
     flash := delete (p +:+ "/reckless.sig") (delete (p +:+ "/reckless") (flash w)) |}.

(** A fresh object over a flash, as [init()] leaves it when the [secret]
    file holds [sec] and the PIN file the state [st]. *)
Definition booted `{Collaborators} (p sec : string) (st : option (gmap string jval))
    (fs : gmap string string) : world :=
  {| self := set_state st (set_keys (derive_keys sec None ∪ ∅) (__init__ p)); flash := fs |}.

(** The key [load_mnemonic] keeps in [self.idkey]: the child 0x1D, hardened,
    of the root. *)
Definition idkey_of `{Collaborators} (m password : string) : PrivateKey :=
  hd_key (hd_child (hd_from_seed (mnemonic_to_seed (strip m) password)) 29 true).
(** ** The contracts of the collaborators *)

(** The signature primitive: a signature made with a key verifies under
    that key's public key, and a serialised signature parses back. *)
Class SigLaws `{Collaborators} : Prop := {
  verify_sign : forall k h, ec_verify (ec_get_public_key k) (ec_sign k h) h = true;
  parse_serialize : forall sig, sig_parse (sig_serialize sig) = Ok sig;
}.

(** The JSON codec on PIN states: what was dumped loads back, and the text
    is valid UTF-8. *)
Class JsonLaws `{Collaborators} : Prop := {
  loads_dumps : forall d, json_loads (json_dumps d) = Ok d;
  dumps_text : forall d, utf8_valid (json_dumps d) = true;
}.

(** The cipher: decryption under the key of the encryption gives the plain
    text back. *)
Class CipherLaws `{Collaborators} : Prop := {
  decrypt_encrypt : forall d k, decrypt (encrypt d k) k = d;
}.

(** ** A reference instance of the collaborators

    Small executable stand-ins, used to run the methods on concrete stores.
    They meet the contracts stated above ([SigLaws], [JsonLaws],
    [CipherLaws]), as is proved further down, and nothing more: they are not
    cryptography. *)

Module Toy.

(** Drop the first [n] characters. *)
Fixpoint string_drop (n : nat) (s : string) : string :=
  match n, s with
  | O, _ => s
  | S n', String _ s' => string_drop n' s'
  | S _, EmptyString => EmptyString
  end.

Definition t_sha256 (s : string) : string := "H(" +:+ s +:+ ")".
Definition t_hmac (k m : string) : string := "M(" +:+ k +:+ "," +:+ m +:+ ")".

(** The public key is the secret itself; a signature is the pair of the
    key and the digest. *)
Definition t_pub (k : PrivateKey) : string := pk_secret k.
Definition t_sign (k : PrivateKey) (h : string) : string := pk_secret k +:+ ":" +:+ h.
Definition t_verify (pub sig h : string) : bool := bool_decide (sig = pub +:+ ":" +:+ h).

Definition t_sig_serialize (sig : string) : string := "sig=" +:+ sig.
Definition t_sig_parse (b : string) : result string :=
  if String.prefix "sig=" b then Ok (string_drop 4 b)
  else Raise (ValueError "bad signature encoding").

(** The key in front of the plain text. *)
Definition t_encrypt (d k : string) : string := k +:+ d.
Definition t_decrypt (c k : string) : string := string_drop (String.length k) c.

(** The PIN state as the binary digits of its code as a countable value. *)
Definition jval_to_sum (v : jval) : unit + (Z + string) :=
  match v with
  | JNull => inl tt
  | JInt n => inr (inl n)
  | JStr s => inr (inr s)
  end.

Definition jval_of_sum (x : unit + (Z + string)) : jval :=
  match x with
  | inl _ => JNull
  | inr (inl n) => JInt n
  | inr (inr s) => JStr s
  end.

#[global] Instance jval_countable : Countable jval.
Proof.
  refine (inj_countable' jval_to_sum jval_of_sum _).
  intros []; reflexivity.
Defined.

Fixpoint pos_digits (p : positive) : string :=
  match p with
  | xH => EmptyString
  | xO p' => String "0" (pos_digits p')
  | xI p' => String "1" (pos_digits p')
  end.

Fixpoint digits_pos (s : string) : option positive :=
  match s with
  | EmptyString => Some xH
  | String c s' =>
      p ← digits_pos s';
      if bool_decide (c = "0"%char) then Some (xO p)
      else if bool_decide (c = "1"%char) then Some (xI p)
      else None
  end.

Definition t_json_dumps (d : option (gmap string jval)) : string :=
  pos_digits (encode d).

Definition t_json_loads (s : string) : result (option (gmap string jval)) :=
  match digits_pos s ≫= decode with
  | Some d => Ok d
  | None => Raise (ValueError "syntax error in JSON")
  end.

(** Seven-bit characters only. *)
Fixpoint t_utf8_valid (s : string) : bool :=
  match s with
  | EmptyString => true
  | String c s' => (N_of_ascii c <? 128)%N && t_utf8_valid s'
  end.

Definition t_wordlist : list string :=
  map (fun i => "w" +:+ fmt_d (Z.of_nat i)) (seq 0 2048).

#[local] Instance toy : Collaborators := {|
  sha256 := t_sha256;
  hmac_sha256 := t_hmac;
  ec_sign := t_sign;
  ec_get_public_key := t_pub;
  ec_verify := t_verify;
  sig_serialize := t_sig_serialize;
  sig_parse := t_sig_parse;
  encrypt := t_encrypt;
  decrypt := t_decrypt;
  json_dumps := t_json_dumps;
  json_loads := t_json_loads;
  utf8_valid := t_utf8_valid;
  mnemonic_is_valid := fun m => bool_decide (m ≠ "");
  mnemonic_to_seed := fun m p => "seed(" +:+ m +:+ "," +:+ p +:+ ")";
  WORDLIST := t_wordlist;
  hd_from_seed := fun s => "m(" +:+ s +:+ ")";
  hd_child := fun r i h => r +:+ "/" +:+ fmt_d i +:+ (if h : bool then "h" else "");
  hd_fingerprint := fun r => slice_to 4 (t_sha256 r);
  hd_key := fun r => ec_PrivateKey (t_sha256 r);
|}.

(** A signature engine that accepts nothing: a faulty part. *)
#[local] Instance faulty : Collaborators := {|
  sha256 := t_sha256;
  hmac_sha256 := t_hmac;
  ec_sign := t_sign;
  ec_get_public_key := t_pub;
  ec_verify := fun _ _ _ => false;
  sig_serialize := t_sig_serialize;
  sig_parse := t_sig_parse;
  encrypt := t_encrypt;
  decrypt := t_decrypt;
  json_dumps := t_json_dumps;
  json_loads := t_json_loads;
  utf8_valid := t_utf8_valid;
  mnemonic_is_valid := fun m => bool_decide (m ≠ "");
  mnemonic_to_seed := fun m p => "seed(" +:+ m +:+ "," +:+ p +:+ ")";
  WORDLIST := t_wordlist;
  hd_from_seed := fun s => "m(" +:+ s +:+ ")";
  hd_child := fun r i h => r +:+ "/" +:+ fmt_d i +:+ (if h : bool then "h" else "");
  hd_fingerprint := fun r => slice_to 4 (t_sha256 r);
  hd_key := fun r => ec_PrivateKey (t_sha256 r);
|}.

(** A store at [/flash/keystore] on an empty flash, as the device boots for
    the first time, and the store after [init()] when the generator returns
    [rnd0]. *)
Definition w_new : world := {| self := __init__ "/flash/keystore"; flash := ∅ |}.
Definition rnd0 : string := "0123456789abcdef0123456789abcdef".
Definition w_init : world := (init (H := toy) rnd0 w_new).2.

(** The directory and the base keys of that store. *)
Definition p0 : string := "/flash/keystore".
Definition k0 : PrivateKey := base_ecdsa (H := toy) rnd0.
Definition hk0 : string := base_hmac (H := toy) rnd0.

(** The PIN state of a world ([None] as the empty dictionary). *)
Definition state_of (w : world) : gmap string jval := default ∅ (state (self w)).

(** The store after [set_pin("1234")], and after [lock()] then. *)
Definition w_pin : world := (set_pin (H := toy) "1234" w_init).2.
Definition w_locked : world := (lock w_pin).2.

(** The store after a mnemonic was loaded and saved, unlocked and locked. *)
Definition m0 : string := "abandon ability able".
Definition w_saved : world :=
  (save (H := toy) ((load_mnemonic (H := toy) (Some m0) "" w_pin).2)).2.
Definition w_saved_locked : world := (lock w_saved).2.

(** The saved store, locked, after nine wrong PINs: one attempt is left. *)
Definition w_saved_last : world :=
  (attempts (H := toy) ["0"; "1"; "2"; "3"; "4"; "5"; "6"; "7"; "8"] w_saved_locked).2.

(** The saved store with a blob that was tampered with. *)
Definition w_tampered : world :=
  (file_write "/flash/keystore/reckless" "garbage" w_saved).2.

(** The store after its first boot with a [pin.json] that was tampered
    with. *)
Definition w_bad_pin_file : world :=
  (file_write "/flash/keystore/pin.json" "{}" w_init).2.

(** A device with the faulty signature engine: the secret is loaded and the
    default PIN state is in memory. *)
Definition w_faulty : world :=
  let w := (load_secret (H := faulty) rnd0 "/flash/keystore" w_new).2 in
  {| self := set_state (Some default_state) (self w); flash := flash w |}.

End Toy.

(** ** More stores of the reference instance *)

Module ToyStores.
Import Toy.
#[local] Existing Instance toy.

(** The derivation of the reference instance: the path is appended to the
    key, and a path that does not start with [m] is refused. *)
#[local] Instance toy_derivation : Derivation := {|
  hd_derive := fun r d =>
    if String.prefix "m" d then Ok (r +:+ "/" +:+ d)
    else Raise (ValueError "bad derivation path");
  hd_to_public := fun r => "pub(" +:+ r +:+ ")";
|}.

(** The locked store after nine wrong PINs: one attempt is left. *)
Definition nine_pins : list string := ["0"; "1"; "2"; "3"; "4"; "5"; "6"; "7"; "8"].
Definition w_nine_wrong : world := (attempts nine_pins w_locked).2.

(** The locked store after three wrong PINs. *)
Definition w_three_wrong : world := (attempts ["0000"; "1111"; "2222"] w_locked).2.

(** A new object over a flash: the device after a power loss. *)
Definition reboot (w : world) : world := {| self := __init__ p0; flash := flash w |}.

(** The saved store whose [secret] file was lost. *)
Definition w_lost_secret : world :=
  {| self := __init__ p0; flash := delete "/flash/keystore/secret" (flash w_saved_locked) |}.

(** The store after its first boot with a mnemonic loaded, without and with
    a passphrase; and the store with a PIN and the mnemonic loaded with a
    passphrase. *)
Definition w_mnemonic : world := (load_mnemonic (Some m0) "" w_init).2.

(** The saved store after [unset_pin()] and a power loss: the blob is
    there, the keys bound to the PIN are not. *)
Definition w_unpinned : world := (init rnd0 (reboot (unset_pin w_saved).2)).2.

(** The saved store whose signature file was removed. *)
Definition w_no_sig : world := (file_remove "/flash/keystore/reckless.sig" w_saved).2.

(** The keys bound to the PIN 1234, and the blob of the saved store. *)
Definition a0 : string := pin_aes_of rnd0 "1234".
Definition kp0 : PrivateKey := pin_ecdsa_of rnd0 "1234".
Definition ct0 : string := encrypt m0 a0.
Definition tag0 : jval := JStr (pin_tag hk0 "1234").

End ToyStores.

(** * Proofs *)

(** ** The helpers on small inputs *)

Example hexlify_ex : hexlify "J z" = "4a207a".
Proof. reflexivity. Qed.

Example fmt_d_ex : fmt_d 9 = "9" /\ fmt_d 0 = "0" /\ fmt_d (-3) = "-3" /\ fmt_d 10 = "10".
Proof. repeat split; reflexivity. Qed.

Example strip_ex : strip "  ab c " = "ab c".
Proof. reflexivity. Qed.

Example int_from_bytes_big_ex : int_from_bytes_big "AB" = 16706.
Proof. reflexivity. Qed.

Example pin_error_msg_ex :
  pin_error_msg (fmt_d 9) (fmt_d 10)
  = "Invalid PIN!" +:+ nl +:+ "9 of 10 attempts left...".
Proof. reflexivity. Qed.

(** The reference store: first boot, a wrong PIN, the right PIN. *)
Example first_boot_ex :
  (init (H := Toy.toy) Toy.rnd0 Toy.w_new).1 = Ok tt
  /\ (is_pin_set Toy.w_init).1 = Ok false
  /\ (pin_attempts_left Toy.w_init).1 = Ok (JInt 10).
Proof. split; [|split]; vm_compute; reflexivity. Qed.

Example locked_store_ex :
  (is_locked Toy.w_locked).1 = Ok true
  /\ (unlock (H := Toy.toy) "1234" Toy.w_locked).1 = Ok tt
  /\ (load (H := Toy.toy) Toy.w_saved_locked).1 = Raise (KeyStoreError "Keystore is locked")
  /\ mnemonic (self (load (H := Toy.toy) Toy.w_saved).2) = Some Toy.m0.
Proof. split; [|split; [|split]]; vm_compute; reflexivity. Qed.

(** ** Files and paths *)

Lemma append_cons (x : ascii) (a b : string) : String x a +:+ b = String x (a +:+ b).
Proof. reflexivity. Qed.

Lemma append_nil (b : string) : "" +:+ b = b.
Proof. reflexivity. Qed.

Lemma prefix_app (p x : string) : String.prefix p (p +:+ x) = true.
Proof.
  induction p as [|a p IH].
  - rewrite append_nil. by destruct x.
  - rewrite append_cons. simpl. destruct (ascii_dec a a); [exact IH | done].
Qed.

Lemma append_assoc (a b c : string) : (a +:+ b) +:+ c = a +:+ (b +:+ c).
Proof.
  induction a as [|x a IH]; [done|].
  rewrite !append_cons. by rewrite IH.
Qed.

Lemma append_nil_r (a : string) : a +:+ "" = a.
Proof. induction a as [|x a IH]; [done|]. by rewrite append_cons, IH. Qed.

(** A payload and its signature are two files. *)
Lemma sig_path_neq (p : string) : p ≠ p +:+ ".sig".
Proof.
  intros Heq. rewrite <- (append_nil_r p) in Heq at 1.
  apply (inj (String.append p)) in Heq. discriminate.
Qed.

(** The signature of [p/pin.json] is [p/pin.json.sig], and likewise for the
    reckless blob. *)
Lemma pin_json_sig_path (p : string) : (p +:+ "/pin.json") +:+ ".sig" = p +:+ "/pin.json.sig".
Proof. by rewrite append_assoc. Qed.

Lemma reckless_sig_path (p : string) : (p +:+ "/reckless") +:+ ".sig" = p +:+ "/reckless.sig".
Proof. by rewrite append_assoc. Qed.

(** Two names below one directory are two files. *)
Lemma path_neq (p a b : string) : a ≠ b -> p +:+ a ≠ p +:+ b.
Proof. intros Hab Heq. apply Hab. by apply (inj (String.append p)). Qed.

(** After the wipe no file is left below the directory... *)
Lemma wiped_below (p name : string) (fs : gmap string string) :
  delete_recursively_files p fs !! (p +:+ "/" +:+ name) = None.
Proof.
  unfold delete_recursively_files. apply map_lookup_filter_None. right.
  intros v _. simpl. rewrite <- append_assoc, prefix_app. done.
Qed.

(** ... and the files elsewhere are as they were. *)
Lemma wiped_elsewhere (p q : string) (fs : gmap string string) :
  String.prefix (p +:+ "/") q = false ->
  delete_recursively_files p fs !! q = fs !! q.
Proof.
  intros Hq. unfold delete_recursively_files.
  destruct (fs !! q) as [v|] eqn:E.
  - apply map_lookup_filter_Some. done.
  - apply map_lookup_filter_None. by left.
Qed.

(** The record is rebuilt field by field by the setters. *)
Lemma set_state_same (s : FlashKeyStore) : set_state (state s) s = s.
Proof. by destruct s. Qed.


(** ** [hexlify] and [strip] *)

Lemma hex_digit_inj (a b : N) :
  (a < 16)%N -> (b < 16)%N -> hex_digit a = hex_digit b -> a = b.
Proof.
  intros Ha Hb Heq. unfold hex_digit in Heq.
  apply (f_equal N_of_ascii) in Heq.
  destruct (N.ltb_spec a 10), (N.ltb_spec b 10);
    rewrite !N_ascii_embedding in Heq by lia; lia.
Qed.

(** Two byte strings with the same hexadecimal form are the same. *)
Lemma hexlify_inj (s1 s2 : string) : hexlify s1 = hexlify s2 -> s1 = s2.
Proof.
  revert s2. induction s1 as [|c1 s1 IH]; intros [|c2 s2] Heq; simpl in Heq;
    try discriminate; [done|].
  injection Heq as Hhi Hlo Hrest.
  pose proof (N_ascii_bounded c1) as Hc1. pose proof (N_ascii_bounded c2) as Hc2.
  apply hex_digit_inj in Hhi;
    [|apply N.Div0.div_lt_upper_bound; lia|apply N.Div0.div_lt_upper_bound; lia].
  apply hex_digit_inj in Hlo; [|apply N.mod_lt; lia|apply N.mod_lt; lia].
  f_equal; [|by apply IH].
  rewrite <- (ascii_N_embedding c1), <- (ascii_N_embedding c2). f_equal.
  rewrite (N.div_mod (N_of_ascii c1) 16), (N.div_mod (N_of_ascii c2) 16) by lia.
  by rewrite Hhi, Hlo.
Qed.

(** So two PINs have the same tag only when their HMACs are the same. *)
Lemma pin_tag_inj `{Collaborators} (hk pin1 pin2 : string) :
  pin_tag hk pin1 = pin_tag hk pin2 -> hmac_sha256 hk pin1 = hmac_sha256 hk pin2.
Proof. apply hexlify_inj. Qed.

Lemma rev_app_append (s1 s2 : string) : String.rev_app s1 s2 = String.rev s1 +:+ s2.
Proof.
  revert s2. induction s1 as [|a s1 IH]; intros s2; [done|].
  unfold String.rev. simpl. rewrite (IH (String a s2)), (IH (String a "")).
  by rewrite append_assoc.
Qed.

Lemma rev_cons (a : ascii) (s : string) :
  String.rev (String a s) = String.rev s +:+ String a "".
Proof. unfold String.rev at 1. simpl. apply rev_app_append. Qed.

Lemma rev_snoc (a : ascii) (s : string) :
  String.rev (s +:+ String a "") = String a (String.rev s).
Proof.
  induction s as [|b s IH]; [done|].
  rewrite append_cons, !rev_cons, IH. done.
Qed.

Lemma lstrip_idemp (s : string) : lstrip (lstrip s) = lstrip s.
Proof.
  induction s as [|c s IH]; [done|]. simpl.
  destruct (is_space c) eqn:E; [exact IH|]. simpl. by rewrite E.
Qed.

Lemma lstrip_snoc (s : string) (c : ascii) :
  is_space c = false -> lstrip (s +:+ String c "") = lstrip s +:+ String c "".
Proof.
  intros Hc. induction s as [|b s IH].
  - simpl. by rewrite Hc.
  - rewrite append_cons. simpl. by destruct (is_space b).
Qed.

(** What [lstrip] returns starts with no white space. *)
Lemma lstrip_head (s : string) :
  lstrip s = "" \/ exists c t, lstrip s = String c t /\ is_space c = false.
Proof.
  induction s as [|c s IH]; [by left|]. simpl.
  destruct (is_space c) eqn:E; [exact IH|]. right. by exists c, s.
Qed.

Lemma rev_rev (s : string) : String.rev (String.rev s) = s.
Proof. induction s as [|b s IH]; [done|]. by rewrite rev_cons, rev_snoc, IH. Qed.

(** What [strip] returns has no white space at either end. *)
Lemma strip_shape (s : string) :
  strip s = ""
  \/ exists c d, strip s = String c (String.rev d) /\ is_space c = false /\ lstrip d = d.
Proof.
  unfold strip. destruct (lstrip_head s) as [->|(c & t & -> & Hc)]; [by left|].
  right. exists c, (lstrip (String.rev t)).
  rewrite rev_cons, lstrip_snoc, rev_snoc by done.
  split; [done|]. split; [done|]. apply lstrip_idemp.
Qed.

(** A stripped string is not changed by [strip]: what [load_mnemonic] puts
    into [self.mnemonic] is a fixed point of [strip]. *)
Lemma strip_idemp (s : string) : strip (strip s) = strip s.
Proof.
  destruct (strip_shape s) as [->|(c & d & -> & Hc & Hd)]; [reflexivity|].
  unfold strip. simpl lstrip. rewrite Hc.
  by rewrite rev_cons, rev_rev, lstrip_snoc, Hd, rev_snoc.
Qed.

(** ** Running the methods *)

Lemma run_bind_ok {A B} (m : M A) (k : A -> M B) (w w' : world) (a : A) :
  m w = (Ok a, w') -> (m ≫= k) w = k a w'.
Proof. intros Hm. unfold mbind, M_bind. by rewrite Hm. Qed.

Lemma run_bind_raise {A B} (m : M A) (k : A -> M B) (w w' : world) (e : exn) :
  m w = (Raise e, w') -> (m ≫= k) w = (Raise e, w').
Proof. intros Hm. unfold mbind, M_bind. by rewrite Hm. Qed.

(** Unfold the monad and the accessors. *)
Ltac run :=
  repeat (progress unfold mbind, M_bind, mret, M_ret, raise, lift, get_self,
            update_self, file_read, file_write, file_exists, keys_get, state_get,
            state_set, as_bytes, as_key);
  simpl.

(** Run the first statement of a sequence with [tac], which proves what it
    returns. *)
Ltac step tac :=
  etrans; [eapply run_bind_ok; tac | cbv beta iota].

Section runs.
Context `{C : Collaborators}.

#[local] Arguments save_state : simpl never.
#[local] Arguments load_state : simpl never.
#[local] Arguments wipe : simpl never.
#[local] Arguments derive_keys : simpl never.

(** *** One statement at a time *)

Lemma state_get_run (w : world) (st : gmap string jval) (key : string) (v : jval) :
  state (self w) = Some st -> st !! key = Some v -> state_get key w = (Ok v, w).
Proof. intros Hst Hv. run. by rewrite Hst, Hv. Qed.

Lemma state_set_run (w : world) (st : gmap string jval) (key : string) (v : jval) :
  state (self w) = Some st ->
  state_set key v w
    = (Ok tt, {| self := set_state (Some (<[key := v]> st)) (self w); flash := flash w |}).
Proof. intros Hst. run. by rewrite Hst. Qed.

Lemma keys_get_run (w : world) (key : string) (v : kval) :
  keys (self w) !! key = Some v -> keys_get key w = (Ok v, w).
Proof. intros Hv. run. by rewrite Hv. Qed.

Lemma file_exists_run (w : world) (p d : string) :
  flash w !! p = Some d -> file_exists p w = (Ok true, w).
Proof. intros Hd. unfold file_exists. rewrite Hd. by rewrite bool_decide_true. Qed.

Lemma sign_to_file_run (data p : string) (k : PrivateKey) (w : world) :
  sign_to_file data p (Some (KPriv k)) w
    = (Ok tt, {| self := self w;
                 flash := <[p := sig_serialize (ec_sign k (sha256 data))]> (flash w) |}).
Proof. reflexivity. Qed.

(** [verify_file] on a payload with the signature of its digest beside it. *)
Lemma verify_file_signed {HS : SigLaws} (w : world) (p data : string) (k : PrivateKey) :
  flash w !! p = Some data ->
  flash w !! (p +:+ ".sig") = Some (sig_serialize (ec_sign k (sha256 data))) ->
  verify_file p (Some (KPriv k)) w = (Ok data, w).
Proof.
  intros Hd Hs. unfold verify_file. run.
  rewrite Hd, Hs. simpl. rewrite parse_serialize, verify_sign. done.
Qed.

(** [verify_file] on a signature that does not verify. *)
Lemma verify_file_invalid (w : world) (p data sigb sig : string) (k : PrivateKey) :
  flash w !! p = Some data ->
  flash w !! (p +:+ ".sig") = Some sigb ->
  sig_parse sigb = Ok sig ->
  ec_verify (ec_get_public_key k) sig (sha256 data) = false ->
  verify_file p (Some (KPriv k)) w = (Raise (KeyStoreError "Signature is invalid!"), w).
Proof.
  intros Hd Hs Hp Hv. unfold verify_file. run. by rewrite Hd, Hs, Hp, Hv.
Qed.

(** The property [is_locked] on a store without a PIN, or with the lock
    open. *)
Lemma is_locked_false (w : world) (st : gmap string jval) (pinv : jval) :
  state (self w) = Some st ->
  st !! "pin" = Some pinv ->
  pinv = JNull \/ _is_locked (self w) = false ->
  is_locked w = (Ok false, w).
Proof.
  intros Hst Hpin Hlk. unfold is_locked, is_pin_set. run. rewrite Hst, Hpin. simpl.
  destruct Hlk as [->|Hlk]; [done|].
  destruct (bool_decide (pinv ≠ JNull)); simpl; by rewrite ?Hlk.
Qed.

(** *** [load_state] and [save_state] *)

(** The [try] block of [load_state] changes nothing when it raises. *)
Lemma load_state_try_raise (w w' : world) (e : exn) :
  load_state_try w = (Raise e, w') -> w' = w.
Proof.
  unfold load_state_try, verify_file, bytes_decode. run.
  repeat (case_match; simplify_eq; simpl; try done).
  all: congruence.
Qed.

(** [load_state] either returns what its [try] block returns, or wipes and
    raises the fatal error. *)
Lemma load_state_ok (w w' : world) :
  load_state_try w = (Ok tt, w') -> load_state w = (Ok tt, w').
Proof. intros Hw. unfold load_state, try_except. by rewrite Hw. Qed.

Lemma load_state_fails (w w' : world) (e : exn) :
  load_state_try w = (Raise e, w') ->
  load_state w
    = (Raise (CriticalErrorWipeImmediately (wiped_msg e)), wiped (path (self w)) w).
Proof.
  intros Hw. pose proof (load_state_try_raise _ _ _ Hw) as ->.
  unfold load_state, try_except. rewrite Hw. done.
Qed.

Lemma load_state_raise_inv (w w' : world) (e : exn) :
  load_state w = (Raise e, w') ->
  exists e0, load_state_try w = (Raise e0, w)
             /\ e = CriticalErrorWipeImmediately (wiped_msg e0)
             /\ w' = wiped (path (self w)) w.
Proof.
  intros Hw. destruct (load_state_try w) as [[[]|e0] w0] eqn:E.
  - rewrite (load_state_ok _ _ E) in Hw. congruence.
  - pose proof (load_state_try_raise _ _ _ E) as ->.
    rewrite (load_state_fails _ _ _ E) in Hw. exists e0. split; [done|]. split; congruence.
Qed.

(** The files [save_state] writes. *)
Lemma saved_pin_json (p : string) (k : PrivateKey) (st : option (gmap string jval))
    (fs : gmap string string) :
  saved p k st fs !! (p +:+ "/pin.json") = Some (json_dumps st).
Proof.
  unfold saved. rewrite lookup_insert_ne by (apply path_neq; discriminate).
  apply lookup_insert_eq.
Qed.

Lemma saved_pin_json_sig (p : string) (k : PrivateKey) (st : option (gmap string jval))
    (fs : gmap string string) :
  saved p k st fs !! (p +:+ "/pin.json.sig")
    = Some (sig_serialize (ec_sign k (sha256 (json_dumps st)))).
Proof. unfold saved. apply lookup_insert_eq. Qed.

Lemma saved_other (p : string) (k : PrivateKey) (st : option (gmap string jval))
    (fs : gmap string string) (q : string) :
  q ≠ p +:+ "/pin.json" -> q ≠ p +:+ "/pin.json.sig" ->
  saved p k st fs !! q = fs !! q.
Proof. intros H1 H2. unfold saved. by rewrite !lookup_insert_ne. Qed.

(** The [try] block on a PIN file that [save_state] or [create_new_secret]
    wrote. *)
Lemma load_state_try_signed {HS : SigLaws} {HJ : JsonLaws} (w : world) (p : string)
    (k : PrivateKey) (st : option (gmap string jval)) :
  path (self w) = p ->
  keys (self w) !! "ecdsa" = Some (KPriv k) ->
  flash w !! (p +:+ "/pin.json") = Some (json_dumps st) ->
  flash w !! (p +:+ "/pin.json.sig")
    = Some (sig_serialize (ec_sign k (sha256 (json_dumps st)))) ->
  load_state_try w = (Ok tt, {| self := set_state st (self w); flash := flash w |}).
Proof.
  intros Hp Hk Hd Hs. unfold load_state_try.
  step ltac:(reflexivity).
  step ltac:(by eapply keys_get_run).
  rewrite Hp.
  step ltac:(apply verify_file_signed; [exact Hd | by rewrite pin_json_sig_path]).
  unfold bytes_decode. rewrite dumps_text. run. by rewrite loads_dumps.
Qed.

(** A fresh object with the same directory and signing key reads the saved
    state back. *)
Lemma saved_reload {HS : SigLaws} {HJ : JsonLaws} (p : string) (k : PrivateKey)
    (st : option (gmap string jval)) (fs : gmap string string) (s0 : FlashKeyStore) :
  path s0 = p ->
  keys s0 !! "ecdsa" = Some (KPriv k) ->
  load_state {| self := s0; flash := saved p k st fs |}
    = (Ok tt, {| self := set_state st s0; flash := saved p k st fs |}).
Proof.
  intros Hp Hk. apply load_state_ok.
  apply (load_state_try_signed {| self := s0; flash := saved p k st fs |} p k st);
    [exact Hp | exact Hk | apply saved_pin_json | apply saved_pin_json_sig].
Qed.

(** [save_state] is the two writes followed by [load_state]. *)
Lemma save_state_unfold (w : world) (p : string) (k : PrivateKey) :
  path (self w) = p ->
  keys (self w) !! "ecdsa" = Some (KPriv k) ->
  save_state w = load_state {| self := self w; flash := saved p k (state (self w)) (flash w) |}.
Proof. intros Hp Hk. unfold save_state. run. by rewrite Hk, Hp. Qed.

Lemma save_state_fails (w w' : world) (p : string) (k : PrivateKey) (e : exn) :
  path (self w) = p ->
  keys (self w) !! "ecdsa" = Some (KPriv k) ->
  load_state_try {| self := self w; flash := saved p k (state (self w)) (flash w) |}
    = (Raise e, w') ->
  save_state w
    = (Raise (CriticalErrorWipeImmediately (wiped_msg e)),
       wiped p {| self := self w; flash := saved p k (state (self w)) (flash w) |}).
Proof.
  intros Hp Hk He. rewrite (save_state_unfold w p k Hp Hk).
  rewrite (load_state_fails _ _ _ He). cbn [self]. by rewrite Hp.
Qed.

(** [save_state] with collaborators that keep their contracts: the two
    files are written, the self-check passes and [self.state] is what it
    was. *)
Lemma save_state_ok {HS : SigLaws} {HJ : JsonLaws} (w : world) (p : string) (k : PrivateKey) :
  path (self w) = p ->
  keys (self w) !! "ecdsa" = Some (KPriv k) ->
  save_state w = (Ok tt, {| self := self w; flash := saved p k (state (self w)) (flash w) |}).
Proof.
  intros Hp Hk. rewrite (save_state_unfold w p k Hp Hk).
  rewrite (saved_reload p k (state (self w)) (flash w) (self w) Hp Hk).
  by rewrite set_state_same.
Qed.

(** [self.state[key] = v] followed by [save_state()]. *)
Lemma set_and_save {HS : SigLaws} {HJ : JsonLaws} (w : world) (p : string) (k : PrivateKey)
    (st : gmap string jval) (key : string) (v : jval) :
  path (self w) = p ->
  keys (self w) !! "ecdsa" = Some (KPriv k) ->
  state (self w) = Some st ->
  (state_set key v;; save_state) w = (Ok tt, persisted p k (<[key := v]> st) w).
Proof.
  intros Hp Hk Hst.
  step ltac:(by eapply state_set_run).
  by rewrite (save_state_ok _ p k).
Qed.


(** *** [unlock] *)

Lemma unlock_decrements {HS : SigLaws} {HJ : JsonLaws} (w : world) (p : string)
    (k : PrivateKey) (st : gmap string jval) (n : Z) (rest : M unit) :
  path (self w) = p ->
  state (self w) = Some st ->
  st !! "pin_attempts_left" = Some (JInt n) ->
  keys (self w) !! "ecdsa" = Some (KPriv k) ->
  (v ← state_get "pin_attempts_left";
   v' ← py_sub1 v;
   state_set "pin_attempts_left" v';;
   save_state;;
   rest) w = rest (decremented p k st n w).
Proof.
  intros Hp Hst Hn Hk.
  step ltac:(by eapply state_get_run).
  step ltac:(reflexivity).
  step ltac:(by eapply state_set_run).
  step ltac:(by eapply (save_state_ok _ p k)).
  reflexivity.
Qed.

Lemma unlock_exhausted {HS : SigLaws} {HJ : JsonLaws} (w : world) (p pin : string)
    (k : PrivateKey) (st : gmap string jval) (n : Z) :
  path (self w) = p ->
  state (self w) = Some st ->
  st !! "pin_attempts_left" = Some (JInt n) ->
  keys (self w) !! "ecdsa" = Some (KPriv k) ->
  n - 1 <= 0 ->
  unlock pin w = (no_more_attempts, wiped p (decremented p k st n w)).
Proof.
  intros Hp Hst Hn Hk Hle. unfold unlock.
  rewrite (unlock_decrements w p k st n) by done.
  step ltac:(eapply state_get_run; [reflexivity | apply lookup_insert_eq]).
  step ltac:(reflexivity).
  rewrite bool_decide_true by done.
  step ltac:(reflexivity).
  cbn [self decremented persisted path set_state]. rewrite Hp.
  reflexivity.
Qed.

Lemma unlock_wrong {HS : SigLaws} {HJ : JsonLaws} (w : world) (p pin : string)
    (k : PrivateKey) (st : gmap string jval) (n mx : Z) (hk : string) (tag : jval) :
  path (self w) = p ->
  state (self w) = Some st ->
  st !! "pin_attempts_left" = Some (JInt n) ->
  st !! "pin_attempts_max" = Some (JInt mx) ->
  st !! "pin" = Some tag ->
  keys (self w) !! "ecdsa" = Some (KPriv k) ->
  keys (self w) !! "hmac" = Some (KBytes hk) ->
  0 < n - 1 ->
  JStr (pin_tag hk pin) ≠ tag ->
  unlock pin w
    = (Raise (PinError (pin_error_msg (fmt_d (n - 1)) (fmt_d mx))), decremented p k st n w).
Proof.
  intros Hp Hst Hn Hmx Htag Hk Hhk Hpos Hne. unfold unlock.
  rewrite (unlock_decrements w p k st n) by done.
  step ltac:(eapply state_get_run; [reflexivity | apply lookup_insert_eq]).
  step ltac:(reflexivity).
  rewrite bool_decide_false by lia.
  step ltac:(eapply keys_get_run; exact Hhk).
  step ltac:(reflexivity).
  step ltac:(eapply state_get_run; [reflexivity | by rewrite lookup_insert_ne]).
  rewrite bool_decide_true by done.
  step ltac:(eapply state_get_run; [reflexivity | apply lookup_insert_eq]).
  step ltac:(eapply state_get_run; [reflexivity | by rewrite lookup_insert_ne]).
  step ltac:(reflexivity).
  step ltac:(reflexivity).
  reflexivity.
Qed.

Lemma derive_keys_base (sec pin : string) :
  derive_keys sec None ⊆ derive_keys sec (Some pin).
Proof.
  unfold derive_keys. cbv zeta.
  do 3 (etrans; [|apply insert_subseteq; by simplify_map_eq]).
  reflexivity.
Qed.

Lemma unlock_right {HS : SigLaws} {HJ : JsonLaws} (w : world) (p pin : string)
    (k : PrivateKey) (st : gmap string jval) (n : Z) (hk sec : string) (vmax : jval) :
  path (self w) = p ->
  state (self w) = Some st ->
  st !! "pin_attempts_left" = Some (JInt n) ->
  st !! "pin_attempts_max" = Some vmax ->
  st !! "pin" = Some (JStr (pin_tag hk pin)) ->
  keys (self w) !! "ecdsa" = Some (KPriv k) ->
  keys (self w) !! "hmac" = Some (KBytes hk) ->
  keys (self w) !! "secret" = Some (KBytes sec) ->
  0 < n - 1 ->
  unlock pin w = (Ok tt, unlocked p k st n vmax sec pin w).
Proof.
  intros Hp Hst Hn Hmx Htag Hk Hhk Hsec Hpos. unfold unlock.
  rewrite (unlock_decrements w p k st n) by done.
  step ltac:(eapply state_get_run; [reflexivity | apply lookup_insert_eq]).
  step ltac:(reflexivity).
  rewrite bool_decide_false by lia.
  step ltac:(eapply keys_get_run; exact Hhk).
  step ltac:(reflexivity).
  step ltac:(eapply state_get_run; [reflexivity | by rewrite lookup_insert_ne]).
  rewrite bool_decide_false by (intros Hne; by apply Hne).
  step ltac:(eapply state_get_run; [reflexivity | by rewrite lookup_insert_ne]).
  step ltac:(eapply state_set_run; reflexivity).
  step ltac:(reflexivity).
  step ltac:(apply (save_state_ok _ p k); [exact Hp | exact Hk]).
  step ltac:(eapply keys_get_run; exact Hsec).
  step ltac:(reflexivity).
  reflexivity.
Qed.

(** Nothing is left below the directory of a wiped world. *)
Lemma wiped_nothing_left (p : string) (w : world) (name : string) :
  flash (wiped p w) !! (p +:+ "/" +:+ name) = None.
Proof. apply wiped_below. Qed.

(** *** Calls of [unlock] in a row *)

Lemma attempts_app (pins1 pins2 : list string) (w : world) :
  attempts (pins1 ++ pins2) w
    = let (rs1, w1) := attempts pins1 w in
      let (rs2, w2) := attempts pins2 w1 in
      (rs1 ++ rs2, w2).
Proof.
  revert w. induction pins1 as [|pin pins1 IH]; intros w; simpl.
  - by destruct (attempts pins2 w).
  - destruct (unlock pin w) as [r w1]. rewrite IH.
    destruct (attempts pins1 w1) as [rs1 w2]. by destruct (attempts pins2 w2).
Qed.

Lemma failed_frame (j : nat) (p : string) (k : PrivateKey) (st : gmap string jval)
    (n : Z) (w : world) :
  path (self (failed j p k st n w)) = path (self w)
  /\ keys (self (failed j p k st n w)) = keys (self w)
  /\ _is_locked (self (failed j p k st n w)) = _is_locked (self w)
  /\ forall q, q ≠ p +:+ "/pin.json" -> q ≠ p +:+ "/pin.json.sig" ->
       flash (failed j p k st n w) !! q = flash w !! q.
Proof.
  revert st n w. induction j as [|j IH]; intros st n w; simpl; [done|].
  destruct (IH (<["pin_attempts_left" := JInt (n - 1)]> st) (n - 1) (decremented p k st n w))
    as (Hp & Hk & Hl & Hf).
  split; [done|]. split; [done|]. split; [done|].
  intros q Hq1 Hq2. rewrite Hf by done. by apply saved_other.
Qed.

Lemma failed_state (j : nat) (p : string) (k : PrivateKey) (st : gmap string jval)
    (n : Z) (w : world) :
  state (self w) = Some st ->
  st !! "pin_attempts_left" = Some (JInt n) ->
  state (self (failed j p k st n w))
    = Some (<["pin_attempts_left" := JInt (n - Z.of_nat j)]> st).
Proof.
  revert st n w. induction j as [|j IH]; intros st n w Hst Hn.
  - simpl. rewrite Z.sub_0_r. by rewrite insert_id.
  - simpl failed. rewrite IH; [|done|apply lookup_insert_eq].
    rewrite insert_insert_eq. do 3 f_equal. lia.
Qed.

Lemma failed_pin_json (j : nat) (p : string) (k : PrivateKey) (st : gmap string jval)
    (n : Z) (w : world) :
  (0 < j)%nat ->
  let st' := <["pin_attempts_left" := JInt (n - Z.of_nat j)]> st in
  flash (failed j p k st n w) !! (p +:+ "/pin.json") = Some (json_dumps (Some st'))
  /\ flash (failed j p k st n w) !! (p +:+ "/pin.json.sig")
       = Some (sig_serialize (ec_sign k (sha256 (json_dumps (Some st'))))).
Proof.
  revert st n w. induction j as [|j IH]; intros st n w Hj; [lia|].
  cbv zeta. simpl failed. destruct j as [|j].
  - simpl failed. replace (n - Z.of_nat 1) with (n - 1) by lia.
    split; [apply saved_pin_json | apply saved_pin_json_sig].
  - destruct (IH (<["pin_attempts_left" := JInt (n - 1)]> st) (n - 1) (decremented p k st n w))
      as [H1 H2]; [lia|].
    rewrite insert_insert_eq in H1, H2.
    replace (n - 1 - Z.of_nat (S j)) with (n - Z.of_nat (S (S j))) in H1, H2 by lia.
    done.
Qed.


(** Calls that each find the counter still positive and the tag different:
    each raises [PinError] with the count that is left. *)
Lemma attempts_wrong {HS : SigLaws} {HJ : JsonLaws} (pins : list string) (w : world) (p : string)
    (k : PrivateKey) (st : gmap string jval) (n mx : Z) (hk : string) (tag : jval) :
  path (self w) = p ->
  state (self w) = Some st ->
  st !! "pin_attempts_left" = Some (JInt n) ->
  st !! "pin_attempts_max" = Some (JInt mx) ->
  st !! "pin" = Some tag ->
  keys (self w) !! "ecdsa" = Some (KPriv k) ->
  keys (self w) !! "hmac" = Some (KBytes hk) ->
  Z.of_nat (length pins) < n ->
  Forall (fun pin => JStr (pin_tag hk pin) ≠ tag) pins ->
  attempts pins w
    = (map (pin_error n mx) (seq 1 (length pins)), failed (length pins) p k st n w).
Proof.
  revert w st n.
  induction pins as [|pin pins IH]; intros w st n Hp Hst Hn Hmx Htag Hk Hhk Hlen Hall.
  - done.
  - inversion_clear Hall as [|? ? Hpin Hall'].
    change (length (pin :: pins)) with (S (length pins)) in *.
    rewrite Nat2Z.inj_succ in Hlen. simpl attempts.
    rewrite (unlock_wrong w p pin k st n mx hk tag) by (done || lia).
    rewrite (IH (decremented p k st n w) (<["pin_attempts_left" := JInt (n - 1)]> st) (n - 1));
      [|done|done|apply lookup_insert_eq| | | | | | ].
    all: try by rewrite lookup_insert_ne.
    all: try done.
    2: lia.
    cbn [failed seq map]. f_equal. f_equal.
    rewrite <- (seq_shift _ 1), map_map. apply map_ext. intros i.
    unfold pin_error. by replace (n - 1 - Z.of_nat i) with (n - Z.of_nat (S i)) by lia.
Qed.

(** The call after them that brings the counter to zero wipes. *)
Lemma attempts_until_wipe {HS : SigLaws} {HJ : JsonLaws} (pins : list string) (last : string)
    (w : world) (p : string) (k : PrivateKey) (st : gmap string jval) (n mx : Z)
    (hk : string) (tag : jval) :
  path (self w) = p ->
  state (self w) = Some st ->
  st !! "pin_attempts_left" = Some (JInt n) ->
  st !! "pin_attempts_max" = Some (JInt mx) ->
  st !! "pin" = Some tag ->
  keys (self w) !! "ecdsa" = Some (KPriv k) ->
  keys (self w) !! "hmac" = Some (KBytes hk) ->
  Z.of_nat (length pins) = n - 1 ->
  Forall (fun pin => JStr (pin_tag hk pin) ≠ tag) pins ->
  let wj := failed (length pins) p k st n w in
  attempts (pins ++ [last]) w
    = (map (pin_error n mx) (seq 1 (length pins)) ++ [no_more_attempts],
       wiped p (decremented p k (<["pin_attempts_left" := JInt 1]> st) 1 wj)).
Proof.
  intros Hp Hst Hn Hmx Htag Hk Hhk Hlen Hall. cbv zeta.
  rewrite attempts_app, (attempts_wrong pins w p k st n mx hk tag) by (done || lia).
  destruct (failed_frame (length pins) p k st n w) as (Hpj & Hks & _ & _).
  pose proof (failed_state (length pins) p k st n w Hst Hn) as Hstj.
  replace (n - Z.of_nat (length pins)) with 1 in Hstj by lia.
  simpl attempts.
  rewrite (unlock_exhausted _ p last k (<["pin_attempts_left" := JInt 1]> st) 1);
    [done|congruence|done|apply lookup_insert_eq|by rewrite Hks|lia].
Qed.

(** *** First boot *)

Lemma create_new_secret_run (rnd p : string) (w : world) :
  let data := json_dumps (Some default_state) in
  let k := ec_PrivateKey (sha256 ("ecdsa" +:+ rnd)) in
  create_new_secret rnd p w
    = (Ok rnd,
       {| self := self w;
          flash := <[p +:+ "/pin.json" := data]>
                     (<[p +:+ "/pin.json.sig" := sig_serialize (ec_sign k (sha256 data))]>
                        (<[p +:+ "/secret" := rnd]> (flash w))) |}).
Proof.
  cbv zeta. unfold create_new_secret.
  step ltac:(reflexivity).
  assert (Hk : derive_keys rnd None !! "ecdsa"
               = Some (KPriv (ec_PrivateKey (sha256 ("ecdsa" +:+ rnd))))).
  { unfold derive_keys. by simplify_map_eq. }
  rewrite Hk.
  step ltac:(reflexivity).
  step ltac:(apply sign_to_file_run).
  step ltac:(reflexivity).
  reflexivity.
Qed.

Lemma load_secret_fresh (rnd p : string) (w : world) :
  flash w !! (p +:+ "/secret") = None ->
  load_secret rnd p w
    = (Ok tt,
       {| self := set_keys (derive_keys rnd None ∪ keys (self w)) (self w);
          flash := flash (create_new_secret rnd p w).2 |}).
Proof.
  intros Hnone. unfold load_secret.
  step ltac:(unfold try_except, file_read; rewrite Hnone; apply create_new_secret_run).
  reflexivity.
Qed.

Lemma load_secret_existing (rnd p secret : string) (w : world) :
  flash w !! (p +:+ "/secret") = Some secret ->
  load_secret rnd p w
    = (Ok tt,
       {| self := set_keys (derive_keys secret None ∪ keys (self w)) (self w);
          flash := flash w |}).
Proof.
  intros Hsec. unfold load_secret.
  step ltac:(unfold try_except, file_read; rewrite Hsec; reflexivity).
  reflexivity.
Qed.

Lemma init_fresh {HS : SigLaws} {HJ : JsonLaws} (rnd p : string) (w : world) :
  path (self w) = p ->
  flash w !! (p +:+ "/secret") = None ->
  init rnd w = (Ok tt, provisioned p rnd w).
Proof.
  intros Hp Hnone. unfold init.
  step ltac:(reflexivity).
  step ltac:(reflexivity).
  rewrite Hp.
  step ltac:(by apply load_secret_fresh).
  rewrite create_new_secret_run. cbn [snd flash].
  apply load_state_ok.
  erewrite (load_state_try_signed _ p (ec_PrivateKey (sha256 ("ecdsa" +:+ rnd)))
              (Some default_state)).
  - reflexivity.
  - exact Hp.
  - simpl. apply lookup_union_Some_l. unfold derive_keys. by simplify_map_eq.
  - simpl. by rewrite lookup_insert_eq.
  - simpl. rewrite lookup_insert_ne by (apply path_neq; discriminate).
    by rewrite lookup_insert_eq.
Qed.

(** *** The keys in [self.keys] *)

Lemma derive_keys_lookup_base (sec : string) (pin : option string) :
  derive_keys sec pin !! "ecdsa" = Some (KPriv (base_ecdsa sec))
  /\ derive_keys sec pin !! "hmac" = Some (KBytes (base_hmac sec))
  /\ derive_keys sec pin !! "secret" = Some (KBytes sec).
Proof. unfold derive_keys. destruct pin; repeat split; by simplify_map_eq. Qed.

Lemma derive_keys_lookup_pin (sec pin : string) :
  derive_keys sec (Some pin) !! "pin_aes" = Some (KBytes (pin_aes_of sec pin))
  /\ derive_keys sec (Some pin) !! "pin_ecdsa" = Some (KPriv (pin_ecdsa_of sec pin)).
Proof. unfold derive_keys. repeat split; by simplify_map_eq. Qed.

Lemma secret_loaded_lookup (sec : string) (w : world) :
  secret_loaded sec w ->
  keys (self w) !! "ecdsa" = Some (KPriv (base_ecdsa sec))
  /\ keys (self w) !! "hmac" = Some (KBytes (base_hmac sec))
  /\ keys (self w) !! "secret" = Some (KBytes sec).
Proof.
  intros Hl. destruct (derive_keys_lookup_base sec None) as (H1 & H2 & H3).
  repeat split; (eapply lookup_weaken; [|exact Hl]); done.
Qed.


(** *** What the world after [unlock] looks like *)

Lemma unlocked_state (p : string) (k : PrivateKey) (st : gmap string jval) (n : Z)
    (vmax : jval) (sec pin : string) (w : world) :
  state (self (unlocked p k st n vmax sec pin w))
    = Some (<["pin_attempts_left" := vmax]> st).
Proof. simpl. by rewrite insert_insert_eq. Qed.

Lemma unlocked_keys (p : string) (k : PrivateKey) (st : gmap string jval) (n : Z)
    (vmax : jval) (sec pin : string) (w : world) :
  keys (self (unlocked p k st n vmax sec pin w))
    = derive_keys sec (Some pin) ∪ keys (self w).
Proof. reflexivity. Qed.

Lemma unlocked_secret_loaded (p : string) (k : PrivateKey) (st : gmap string jval)
    (n : Z) (vmax : jval) (sec pin : string) (w : world) :
  secret_loaded sec (unlocked p k st n vmax sec pin w).
Proof.
  unfold secret_loaded. rewrite unlocked_keys.
  etrans; [apply derive_keys_base|]. apply map_union_subseteq_l.
Qed.

Lemma unlocked_pin_keys (p : string) (k : PrivateKey) (st : gmap string jval) (n : Z)
    (vmax : jval) (sec pin : string) (w : world) :
  keys (self (unlocked p k st n vmax sec pin w)) !! "pin_aes"
    = Some (KBytes (pin_aes_of sec pin))
  /\ keys (self (unlocked p k st n vmax sec pin w)) !! "pin_ecdsa"
       = Some (KPriv (pin_ecdsa_of sec pin)).
Proof.
  rewrite unlocked_keys. destruct (derive_keys_lookup_pin sec pin) as [H1 H2].
  split; by apply lookup_union_Some_l.
Qed.

Lemma unlocked_path (p : string) (k : PrivateKey) (st : gmap string jval) (n : Z)
    (vmax : jval) (sec pin : string) (w : world) :
  path (self (unlocked p k st n vmax sec pin w)) = path (self w).
Proof. reflexivity. Qed.

Lemma unlocked_other (p : string) (k : PrivateKey) (st : gmap string jval) (n : Z)
    (vmax : jval) (sec pin : string) (w : world) (q : string) :
  q ≠ p +:+ "/pin.json" -> q ≠ p +:+ "/pin.json.sig" ->
  flash (unlocked p k st n vmax sec pin w) !! q = flash w !! q.
Proof. intros H1 H2. cbn [flash unlocked]. by rewrite !saved_other. Qed.

Lemma unlocked_pin_json (p : string) (k : PrivateKey) (st : gmap string jval) (n : Z)
    (vmax : jval) (sec pin : string) (w : world) :
  let st' := <["pin_attempts_left" := vmax]> st in
  flash (unlocked p k st n vmax sec pin w) !! (p +:+ "/pin.json")
    = Some (json_dumps (Some st'))
  /\ flash (unlocked p k st n vmax sec pin w) !! (p +:+ "/pin.json.sig")
       = Some (sig_serialize (ec_sign k (sha256 (json_dumps (Some st'))))).
Proof.
  cbv zeta. cbn [flash unlocked]. rewrite insert_insert_eq.
  split; [apply saved_pin_json | apply saved_pin_json_sig].
Qed.

(** *** [set_pin], [change_pin] and [load] *)

(** [set_pin] with a counter that stays positive. *)
Lemma set_pin_ok {HS : SigLaws} {HJ : JsonLaws} (w : world) (p pin : string) (k : PrivateKey)
    (st : gmap string jval) (n : Z) (hk sec : string) (vmax : jval) :
  path (self w) = p ->
  state (self w) = Some st ->
  st !! "pin_attempts_left" = Some (JInt n) ->
  st !! "pin_attempts_max" = Some vmax ->
  keys (self w) !! "ecdsa" = Some (KPriv k) ->
  keys (self w) !! "hmac" = Some (KBytes hk) ->
  keys (self w) !! "secret" = Some (KBytes sec) ->
  0 < n - 1 ->
  set_pin pin w = (Ok tt, pin_set p k st n vmax hk sec pin w).
Proof.
  intros Hp Hst Hn Hmx Hk Hhk Hsec Hpos. unfold set_pin.
  step ltac:(eapply keys_get_run; exact Hhk).
  step ltac:(reflexivity).
  step ltac:(by eapply state_set_run).
  step ltac:(apply (save_state_ok _ p k); [exact Hp | exact Hk]).
  apply (unlock_right _ p pin k _ n hk sec vmax);
    [exact Hp | reflexivity | by rewrite lookup_insert_ne | by rewrite lookup_insert_ne
    | apply lookup_insert_eq | exact Hk | exact Hhk | exact Hsec | exact Hpos].
Qed.

(** [verify_file] followed by [decrypt], as [change_pin] and [load] do
    it. *)
Lemma read_reckless {HS : SigLaws} (w : world) (p ct a : string) (kp : PrivateKey) :
  keys (self w) !! "pin_ecdsa" = Some (KPriv kp) ->
  keys (self w) !! "pin_aes" = Some (KBytes a) ->
  flash w !! (p +:+ "/reckless") = Some ct ->
  flash w !! (p +:+ "/reckless.sig") = Some (sig_serialize (ec_sign kp (sha256 ct))) ->
  (k ← keys_get "pin_ecdsa";
   data ← verify_file (p +:+ "/reckless") (Some k);
   a ← keys_get "pin_aes";
   a ← as_bytes a;
   mret (Some (decrypt data a))) w = (Ok (Some (decrypt ct a)), w).
Proof.
  intros Hkp Ha Hct Hsig.
  step ltac:(eapply keys_get_run; exact Hkp).
  step ltac:(apply verify_file_signed; [exact Hct | by rewrite reckless_sig_path]).
  step ltac:(eapply keys_get_run; exact Ha).
  step ltac:(reflexivity).
  reflexivity.
Qed.

(** The end of [change_pin]: the blob is written under the keys in
    [self.keys]. *)
Lemma write_reckless (w : world) (p data a : string) (kp : PrivateKey) :
  keys (self w) !! "pin_ecdsa" = Some (KPriv kp) ->
  keys (self w) !! "pin_aes" = Some (KBytes a) ->
  (a ← keys_get "pin_aes";
   a ← as_bytes a;
   let ct := encrypt data a in
   file_write (p +:+ "/reckless") ct;;
   k ← keys_get "pin_ecdsa";
   sign_to_file ct (p +:+ "/reckless.sig") (Some k)) w
  = (Ok tt, reckless_written p (encrypt data a) kp w).
Proof.
  intros Hkp Ha.
  step ltac:(eapply keys_get_run; exact Ha).
  step ltac:(reflexivity).
  cbv zeta.
  step ltac:(reflexivity).
  step ltac:(eapply keys_get_run; exact Hkp).
  reflexivity.
Qed.

(** [load_mnemonic] with a mnemonic. *)
Lemma load_mnemonic_run (m password : string) (w : world) :
  load_mnemonic (Some m) password w
    = if mnemonic_is_valid (strip m) then (Ok tt, mnemonic_loaded m password w)
      else (Raise (KeyStoreError "Invalid mnemonic"), mnemonic_refused m w).
Proof.
  unfold load_mnemonic. run. by destruct (mnemonic_is_valid (strip m)).
Qed.

(** [load] on an unlocked store with a blob signed under [self.keys]. *)
Lemma load_ok {HS : SigLaws} (w : world) (p : string) (st : gmap string jval) (pinv : jval)
    (ct a : string) (kp : PrivateKey) :
  path (self w) = p ->
  state (self w) = Some st ->
  st !! "pin" = Some pinv ->
  _is_locked (self w) = false ->
  keys (self w) !! "pin_ecdsa" = Some (KPriv kp) ->
  keys (self w) !! "pin_aes" = Some (KBytes a) ->
  flash w !! (p +:+ "/reckless") = Some ct ->
  flash w !! (p +:+ "/reckless.sig") = Some (sig_serialize (ec_sign kp (sha256 ct))) ->
  utf8_valid (decrypt ct a) = true ->
  load w = load_mnemonic (Some (decrypt ct a)) "" w.
Proof.
  intros Hp Hst Hpin Hlk Hkp Ha Hct Hsig Hutf. unfold load.
  step ltac:(unfold is_locked, is_pin_set; run; rewrite Hst, Hpin; simpl;
             destruct (bool_decide (pinv ≠ JNull)); simpl; rewrite ?Hlk; reflexivity).
  step ltac:(reflexivity).
  rewrite Hp.
  step ltac:(eapply file_exists_run; exact Hct).
  cbn [negb].
  step ltac:(eapply keys_get_run; exact Hkp).
  step ltac:(apply verify_file_signed; [exact Hct | by rewrite reckless_sig_path]).
  step ltac:(eapply keys_get_run; exact Ha).
  step ltac:(reflexivity).
  step ltac:(unfold bytes_decode; rewrite Hutf; reflexivity).
  reflexivity.
Qed.


(** [change_pin] on a store whose PIN is [old], with a blob signed under
    the keys of [old]. *)
Lemma change_pin_ok {HS : SigLaws} {HJ : JsonLaws} (w : world) (p sec old new ct : string)
    (st : gmap string jval) (n mx : Z) :
  path (self w) = p ->
  secret_loaded sec w ->
  state (self w) = Some st ->
  st !! "pin" = Some (JStr (pin_tag (base_hmac sec) old)) ->
  st !! "pin_attempts_left" = Some (JInt n) ->
  st !! "pin_attempts_max" = Some (JInt mx) ->
  0 < n - 1 -> 0 < mx - 1 ->
  flash w !! (p +:+ "/reckless") = Some ct ->
  flash w !! (p +:+ "/reckless.sig")
    = Some (sig_serialize (ec_sign (pin_ecdsa_of sec old) (sha256 ct))) ->
  change_pin old new w = (Ok tt, pin_changed p st n mx sec old new ct w).
Proof.
  intros Hp Hl Hst Htag Hn Hmx Hpos Hmxpos Hct Hsig.
  destruct (secret_loaded_lookup sec w Hl) as (Hk & Hhk & Hsec).
  pose proof (unlocked_secret_loaded p (base_ecdsa sec) st n (JInt mx) sec old w) as Hl1.
  destruct (secret_loaded_lookup sec _ Hl1) as (Hk1 & Hhk1 & Hsec1).
  destruct (unlocked_pin_keys p (base_ecdsa sec) st n (JInt mx) sec old w) as [Ha1 Hkp1].
  unfold change_pin.
  step ltac:(apply (unlock_right w p old (base_ecdsa sec) st n (base_hmac sec) sec (JInt mx));
             assumption).
  step ltac:(reflexivity).
  rewrite unlocked_path, Hp.
  step ltac:(eapply file_exists_run; rewrite unlocked_other;
             [exact Hct | apply path_neq; discriminate..]).
  step ltac:(apply (read_reckless _ p ct (pin_aes_of sec old) (pin_ecdsa_of sec old));
             [exact Hkp1 | exact Ha1
             | rewrite unlocked_other; [exact Hct | apply path_neq; discriminate..]
             | rewrite unlocked_other; [exact Hsig | apply path_neq; discriminate..]]).
  step ltac:(apply (set_pin_ok _ p new (base_ecdsa sec)
                      (<["pin_attempts_left" := JInt mx]>
                         (<["pin_attempts_left" := JInt (n - 1)]> st))
                      mx (base_hmac sec) sec (JInt mx));
             [exact Hp | reflexivity | apply lookup_insert_eq
             | by rewrite !lookup_insert_ne | exact Hk1 | exact Hhk1 | exact Hsec1
             | exact Hmxpos]).
  unfold pin_changed. cbv zeta.
  apply write_reckless; apply unlocked_pin_keys.
Qed.


(** [set_pin] on a counter that the [unlock] at its end uses up: the tag is
    saved, then the store is wiped. *)
Lemma set_pin_exhausted {HS : SigLaws} {HJ : JsonLaws} (w : world) (p pin : string)
    (k : PrivateKey) (hk : string) (st : gmap string jval) (n : Z) :
  path (self w) = p ->
  state (self w) = Some st ->
  st !! "pin_attempts_left" = Some (JInt n) ->
  keys (self w) !! "ecdsa" = Some (KPriv k) ->
  keys (self w) !! "hmac" = Some (KBytes hk) ->
  n - 1 <= 0 ->
  let st1 := <["pin" := JStr (pin_tag hk pin)]> st in
  set_pin pin w = (no_more_attempts, wiped p (decremented p k st1 n (persisted p k st1 w))).
Proof.
  intros Hp Hst Hn Hk Hhk Hle. cbv zeta. unfold set_pin.
  step ltac:(eapply keys_get_run; exact Hhk).
  step ltac:(reflexivity).
  step ltac:(by eapply state_set_run).
  step ltac:(apply (save_state_ok _ p k); [exact Hp | exact Hk]).
  apply (unlock_exhausted _ p pin k (<["pin" := JStr (pin_tag hk pin)]> st) n);
    [exact Hp | reflexivity | by rewrite lookup_insert_ne | exact Hk | exact Hle].
Qed.

(** [change_pin] with the right old PIN on a counter that one of its two
    calls of [unlock] uses up: the one for the old PIN when one attempt is
    left, the one inside [set_pin] when the maximum is 1. *)
Lemma change_pin_exhausted {HS : SigLaws} {HJ : JsonLaws} (w : world) (p sec old new ct : string)
    (st : gmap string jval) (n mx : Z) :
  path (self w) = p ->
  secret_loaded sec w ->
  state (self w) = Some st ->
  st !! "pin" = Some (JStr (pin_tag (base_hmac sec) old)) ->
  st !! "pin_attempts_left" = Some (JInt n) ->
  st !! "pin_attempts_max" = Some (JInt mx) ->
  flash w !! (p +:+ "/reckless") = Some ct ->
  flash w !! (p +:+ "/reckless.sig")
    = Some (sig_serialize (ec_sign (pin_ecdsa_of sec old) (sha256 ct))) ->
  n <= 1 \/ mx <= 1 ->
  exists w',
    change_pin old new w = (no_more_attempts, w')
    /\ forall name, flash w' !! (p +:+ "/" +:+ name) = None.
Proof.
  intros Hp Hl Hst Htag Hn Hmx Hct Hsig Hlast.
  destruct (secret_loaded_lookup sec w Hl) as (Hk & Hhk & Hsec).
  destruct (decide (n - 1 <= 0)) as [Hle|Hpos].
  - exists (wiped p (decremented p (base_ecdsa sec) st n w)).
    split; [|intros name; apply wiped_nothing_left].
    unfold change_pin. eapply run_bind_raise.
    by apply (unlock_exhausted w p old (base_ecdsa sec) st n).
  - assert (Hmxle : mx - 1 <= 0) by lia.
    pose proof (unlocked_secret_loaded p (base_ecdsa sec) st n (JInt mx) sec old w) as Hl1.
    destruct (secret_loaded_lookup sec _ Hl1) as (Hk1 & Hhk1 & Hsec1).
    destruct (unlocked_pin_keys p (base_ecdsa sec) st n (JInt mx) sec old w) as [Ha1 Hkp1].
    eexists. split; [|intros name; apply wiped_nothing_left].
    unfold change_pin.
    step ltac:(apply (unlock_right w p old (base_ecdsa sec) st n (base_hmac sec) sec (JInt mx));
               [assumption.. | lia]).
    step ltac:(reflexivity).
    rewrite unlocked_path, Hp.
    step ltac:(eapply file_exists_run; rewrite unlocked_other;
               [exact Hct | apply path_neq; discriminate..]).
    step ltac:(apply (read_reckless _ p ct (pin_aes_of sec old) (pin_ecdsa_of sec old));
               [exact Hkp1 | exact Ha1
               | rewrite unlocked_other; [exact Hct | apply path_neq; discriminate..]
               | rewrite unlocked_other; [exact Hsig | apply path_neq; discriminate..]]).
    eapply run_bind_raise.
    apply (set_pin_exhausted _ p new (base_ecdsa sec) (base_hmac sec)
             (<["pin_attempts_left" := JInt mx]>
                (<["pin_attempts_left" := JInt (n - 1)]> st)) mx);
      [exact Hp | reflexivity | apply lookup_insert_eq | exact Hk1 | exact Hhk1 | exact Hmxle].
Qed.

(** *** Where the hypotheses of the statements come from *)

(** After [load_secret], whichever way it went, a secret is loaded. *)
Lemma load_secret_loads (rnd p : string) (w : world) :
  exists sec w',
    load_secret rnd p w = (Ok tt, w')
    /\ secret_loaded sec w'
    /\ (flash w !! (p +:+ "/secret") = Some sec
        \/ (flash w !! (p +:+ "/secret") = None /\ sec = rnd)).
Proof.
  destruct (flash w !! (p +:+ "/secret")) as [sec|] eqn:E.
  - exists sec. eexists. split; [by apply load_secret_existing|].
    split; [apply map_union_subseteq_l | by left].
  - exists rnd. eexists. split; [by apply load_secret_fresh|].
    split; [apply map_union_subseteq_l | by right].
Qed.

(** [save] on an unlocked store writes the mnemonic in [self.mnemonic],
    encrypted and signed under the keys bound to the PIN, and reads it
    back. *)
Lemma save_writes_blob {HS : SigLaws} {HC : CipherLaws} (w : world) (p : string)
    (st : gmap string jval) (pinv : jval) (m a : string) (kp : PrivateKey) :
  path (self w) = p ->
  state (self w) = Some st ->
  st !! "pin" = Some pinv ->
  _is_locked (self w) = false ->
  mnemonic (self w) = Some m ->
  keys (self w) !! "pin_ecdsa" = Some (KPriv kp) ->
  keys (self w) !! "pin_aes" = Some (KBytes a) ->
  utf8_valid m = true ->
  save w = load_mnemonic (Some m) "" (reckless_written p (encrypt m a) kp w).
Proof.
  intros Hp Hst Hpin Hlk Hm Hkp Ha Hutf. unfold save.
  step ltac:(eapply is_locked_false; [exact Hst | exact Hpin | by right]).
  step ltac:(reflexivity).
  rewrite Hm, Hp.
  step ltac:(eapply keys_get_run; exact Ha).
  step ltac:(reflexivity).
  cbv zeta.
  step ltac:(reflexivity).
  step ltac:(eapply keys_get_run; exact Hkp).
  step ltac:(apply sign_to_file_run).
  change (load (reckless_written p (encrypt m a) kp w)
          = load_mnemonic (Some m) "" (reckless_written p (encrypt m a) kp w)).
  rewrite (load_ok (reckless_written p (encrypt m a) kp w) p st pinv (encrypt m a) a kp);
    try assumption.
  - by rewrite decrypt_encrypt.
  - unfold reckless_written. cbn [flash].
    rewrite lookup_insert_ne by (apply path_neq; discriminate). apply lookup_insert_eq.
  - unfold reckless_written. cbn [flash]. apply lookup_insert_eq.
  - by rewrite decrypt_encrypt.
Qed.

End runs.

(** * The properties of the specification *)

Section properties.
Context `{C : Collaborators}.

(** C6.  [derive_keys(secret, pin)] is a total function of its arguments: it
    computes the signing key from SHA256("ecdsa"||secret), the hmac key
    SHA256("hmac"||secret) and the auth key SHA256("auth"||secret); with a
    PIN it adds pin_aes = SHA256("aes"||pin_key), pin_hmac =
    SHA256("hmac"||pin_key) and the PIN signing key from
    SHA256("ecdsa"||pin_key), where pin_key = SHA256("keys"||secret||pin);
    the base fields are the same with and without a PIN, and no other field
    is there besides the secret itself. *)
Theorem derive_keys_fields (secret pin : string) :
  let pin_key := sha256 ("keys" +:+ secret +:+ pin) in
  let without := derive_keys secret None in
  let with_pin := derive_keys secret (Some pin) in
  (without !! "ecdsa" = Some (KPriv (ec_PrivateKey (sha256 ("ecdsa" +:+ secret))))
   /\ without !! "hmac" = Some (KBytes (sha256 ("hmac" +:+ secret)))
   /\ without !! "auth" = Some (KBytes (sha256 ("auth" +:+ secret)))
   /\ without !! "secret" = Some (KBytes secret))
  /\ (with_pin !! "pin_aes" = Some (KBytes (sha256 ("aes" +:+ pin_key)))
      /\ with_pin !! "pin_hmac" = Some (KBytes (sha256 ("hmac" +:+ pin_key)))
      /\ with_pin !! "pin_ecdsa" = Some (KPriv (ec_PrivateKey (sha256 ("ecdsa" +:+ pin_key)))))
  /\ (forall key, key ∈ ["secret"; "ecdsa"; "hmac"; "auth"] ->
        with_pin !! key = without !! key)
  /\ dom without = ({["secret"; "ecdsa"; "hmac"; "auth"]} : gset string)
  /\ dom with_pin
     = ({["secret"; "ecdsa"; "hmac"; "auth"; "pin_aes"; "pin_hmac"; "pin_ecdsa"]} : gset string).
Proof.
  cbv zeta. unfold derive_keys. cbv zeta. rewrite <- (append_assoc "keys" secret pin).
  split; [|split; [|split; [|split]]].
  - repeat split; by simplify_map_eq.
  - repeat split; by simplify_map_eq.
  - intros key Hkey.
    repeat (apply elem_of_cons in Hkey as [->|Hkey]; [by simplify_map_eq|]).
    by apply elem_of_nil in Hkey.
  - rewrite !dom_insert_L, dom_singleton_L. set_solver.
  - rewrite !dom_insert_L, dom_singleton_L. set_solver.
Qed.


(** C7.  Writing a payload and, beside it, the signature [sign_to_file]
    makes of it (in either order, as [save_state] and [create_new_secret]
    do), and then reading it back with [verify_file] under the same key,
    returns the payload unchanged and leaves the files as they are; and when
    the signature read back does not verify under the key's public key,
    [verify_file] raises instead of returning the payload (the error is the
    code's [KeyStoreError "Signature is invalid!"], which the spec calls
    IntegrityError). *)
Theorem verify_file_after_sign_to_file {HS : SigLaws} (w : world) (payload p : string)
    (key : PrivateKey) :
  let write_then_sign :=
    (file_write p payload;; sign_to_file payload (p +:+ ".sig") (Some (KPriv key))) w in
  let sign_then_write :=
    (sign_to_file payload (p +:+ ".sig") (Some (KPriv key));; file_write p payload) w in
  (write_then_sign.1 = Ok tt
   /\ verify_file p (Some (KPriv key)) write_then_sign.2 = (Ok payload, write_then_sign.2))
  /\ (sign_then_write.1 = Ok tt
      /\ verify_file p (Some (KPriv key)) sign_then_write.2 = (Ok payload, sign_then_write.2))
  /\ (forall (w' : world) (data sigb sig : string),
        flash w' !! p = Some data ->
        flash w' !! (p +:+ ".sig") = Some sigb ->
        sig_parse sigb = Ok sig ->
        ec_verify (ec_get_public_key key) sig (sha256 data) = false ->
        verify_file p (Some (KPriv key)) w'
          = (Raise (KeyStoreError "Signature is invalid!"), w')).
Proof.
  pose proof (sig_path_neq p) as Hne.
  cbv zeta. split; [|split].
  - split; [reflexivity|]. apply verify_file_signed; simpl.
    + by rewrite lookup_insert_ne, lookup_insert_eq.
    + by rewrite lookup_insert_eq.
  - split; [reflexivity|]. apply verify_file_signed; simpl.
    + by rewrite lookup_insert_eq.
    + rewrite lookup_insert_ne by done. by rewrite lookup_insert_eq.
  - intros w' data sigb sig Hd Hs Hp Hv. by eapply verify_file_invalid.
Qed.

(** C8.  With a secret loaded, the word [get_auth_word] returns for a PIN
    fragment is the entry of the 2048-word list at index
    int.from_bytes(HMAC-SHA256(auth_key, fragment)[:2], 'big') mod 2048,
    where auth_key = SHA256("auth"||secret); the call changes nothing, and
    its result is the same whatever the PIN state (none at all, no PIN
    configured) and the lock flag are. *)
Theorem get_auth_word_index (w : world) (secret pin_part : string) :
  secret_loaded secret w ->
  length WORDLIST = 2048%nat ->
  let auth_key := sha256 ("auth" +:+ secret) in
  let index := int_from_bytes_big (slice_to 2 (hmac_sha256 auth_key pin_part)) `mod` 2048 in
  exists word,
    WORDLIST !! Z.to_nat index = Some word
    /\ get_auth_word pin_part w = (Ok word, w)
    /\ forall st lk,
         get_auth_word pin_part (with_pin_state st lk w) = (Ok word, with_pin_state st lk w).
Proof.
  intros Hsec Hlen. cbv zeta.
  set (index := int_from_bytes_big _ `mod` 2048).
  assert (Hidx : 0 <= index < 2048) by (apply Z.mod_pos_bound; lia).
  destruct (lookup_lt_is_Some_2 WORDLIST (Z.to_nat index)) as [word Hword]; [lia|].
  assert (Hauth : keys (self w) !! "auth" = Some (KBytes (sha256 ("auth" +:+ secret)))).
  { eapply lookup_weaken; [|exact Hsec]. unfold derive_keys. by simplify_map_eq. }
  assert (Hrun : forall w0, keys (self w0) = keys (self w) ->
                   get_auth_word pin_part w0 = (Ok word, w0)).
  { intros w0 Hk. unfold get_auth_word. run.
    rewrite Hk, Hauth, Hlen. simpl.
    change (Z.of_nat 2048) with 2048. fold index. by rewrite Hword. }
  exists word. split; [done|]. split; [by apply Hrun|].
  intros st lk. by apply Hrun.
Qed.


(** C2.  When [unlock(pin)] is called and the counter is still positive
    after the decrement, a PIN whose hex tag differs from the stored one
    makes it raise [PinError] with the message carrying the attempts left;
    the only thing done by then is the decrement and the save of the state:
    [self.state] and the signed [pin.json] on the flash hold the
    decremented counter, and a fresh object reading the flash gets it back
    (nothing is rolled back). *)
Theorem unlock_wrong_pin_keeps_decrement {HS : SigLaws} {HJ : JsonLaws} (w : world) (p pin : string)
    (k : PrivateKey) (st : gmap string jval) (n mx : Z) (hk : string) (tag : jval) :
  path (self w) = p ->
  state (self w) = Some st ->
  st !! "pin_attempts_left" = Some (JInt n) ->
  st !! "pin_attempts_max" = Some (JInt mx) ->
  st !! "pin" = Some tag ->
  keys (self w) !! "ecdsa" = Some (KPriv k) ->
  keys (self w) !! "hmac" = Some (KBytes hk) ->
  0 < n - 1 ->
  JStr (pin_tag hk pin) ≠ tag ->
  let st' := <["pin_attempts_left" := JInt (n - 1)]> st in
  let w' := decremented p k st n w in
  unlock pin w
    = (Raise (PinError ("Invalid PIN!" +:+ nl +:+ fmt_d (n - 1) +:+ " of " +:+ fmt_d mx
                        +:+ " attempts left...")), w')
  /\ state (self w') = Some st'
  /\ flash w' !! (p +:+ "/pin.json") = Some (json_dumps (Some st'))
  /\ flash w' !! (p +:+ "/pin.json.sig")
       = Some (sig_serialize (ec_sign k (sha256 (json_dumps (Some st')))))
  /\ (forall q, q ≠ p +:+ "/pin.json" -> q ≠ p +:+ "/pin.json.sig" ->
        flash w' !! q = flash w !! q)
  /\ (forall s0, path s0 = p -> keys s0 !! "ecdsa" = Some (KPriv k) ->
        load_state (rebooted s0 w') = (Ok tt, rebooted (set_state (Some st') s0) w')).
Proof.
  intros Hp Hst Hn Hmx Htag Hk Hhk Hpos Hne. cbv zeta.
  split; [by eapply unlock_wrong|].
  split; [reflexivity|].
  split; [apply saved_pin_json|].
  split; [apply saved_pin_json_sig|].
  split; [intros q Hq1 Hq2; by apply saved_other|].
  intros s0 Hp0 Hk0. by apply saved_reload.
Qed.

(** C4.  When [unlock(pin)] is called with the PIN whose hex tag is the
    stored one and the counter is still positive after the decrement, it
    returns normally: [pin_attempts_left] is back at [pin_attempts_max], the
    store is unlocked, the state on the flash is that state, signed, and
    [self.keys] is the old dictionary updated with [derive_keys(secret,
    pin)], so it holds [pin_aes], [pin_hmac] and [pin_ecdsa] of that PIN. *)
Theorem unlock_right_pin_resets {HS : SigLaws} {HJ : JsonLaws} (w : world) (p pin : string)
    (k : PrivateKey) (st : gmap string jval) (n : Z) (hk sec : string) (vmax : jval) :
  path (self w) = p ->
  state (self w) = Some st ->
  st !! "pin_attempts_left" = Some (JInt n) ->
  st !! "pin_attempts_max" = Some vmax ->
  st !! "pin" = Some (JStr (pin_tag hk pin)) ->
  keys (self w) !! "ecdsa" = Some (KPriv k) ->
  keys (self w) !! "hmac" = Some (KBytes hk) ->
  keys (self w) !! "secret" = Some (KBytes sec) ->
  0 < n - 1 ->
  let st' := <["pin_attempts_left" := vmax]> st in
  let pin_key := sha256 ("keys" +:+ sec +:+ pin) in
  exists w',
    unlock pin w = (Ok tt, w')
    /\ state (self w') = Some st'
    /\ st' !! "pin_attempts_left" = st' !! "pin_attempts_max"
    /\ _is_locked (self w') = false
    /\ is_locked w' = (Ok false, w')
    /\ flash w' !! (p +:+ "/pin.json") = Some (json_dumps (Some st'))
    /\ flash w' !! (p +:+ "/pin.json.sig")
         = Some (sig_serialize (ec_sign k (sha256 (json_dumps (Some st')))))
    /\ keys (self w') = derive_keys sec (Some pin) ∪ keys (self w)
    /\ keys (self w') !! "pin_aes" = Some (KBytes (sha256 ("aes" +:+ pin_key)))
    /\ keys (self w') !! "pin_hmac" = Some (KBytes (sha256 ("hmac" +:+ pin_key)))
    /\ keys (self w') !! "pin_ecdsa"
         = Some (KPriv (ec_PrivateKey (sha256 ("ecdsa" +:+ pin_key)))).
Proof.
  intros Hp Hst Hn Hmx Htag Hk Hhk Hsec Hpos. cbv zeta.
  exists (unlocked p k st n vmax sec pin w).
  destruct (unlocked_pin_json p k st n vmax sec pin w) as [Hjson Hsig].
  split; [by eapply unlock_right|].
  split; [apply unlocked_state|].
  split; [rewrite lookup_insert_eq, lookup_insert_ne by done; by rewrite Hmx|].
  split; [reflexivity|].
  split.
  { unfold is_locked, is_pin_set.
    step ltac:(etrans;
               [eapply run_bind_ok, state_get_run;
                [apply unlocked_state | by rewrite lookup_insert_ne]
               |reflexivity]).
    reflexivity. }
  split; [exact Hjson|]. split; [exact Hsig|].
  split; [reflexivity|].
  rewrite <- (append_assoc "keys" sec pin), unlocked_keys.
  repeat split; (apply lookup_union_Some_l; unfold derive_keys; by simplify_map_eq).
Qed.

(** C10.  [save_state] is the two writes followed by [load_state] on what
    was just written: when that read fails, for whatever reason, the secret
    area is wiped and the fatal error is raised, and [save_state] fails in
    no other way.  So [unlock], [set_pin] and [unset_pin], which save the
    state, end in the wipe and the fatal error when the self-check of their
    save fails. *)
Theorem save_state_rereads (w : world) (p : string) (k : PrivateKey) :
  path (self w) = p ->
  keys (self w) !! "ecdsa" = Some (KPriv k) ->
  let written st := {| self := set_state st (self w); flash := saved p k st (flash w) |} in
  save_state w = load_state (written (state (self w)))
  /\ (forall e w', load_state_try (written (state (self w))) = (Raise e, w') ->
        save_state w
          = (Raise (CriticalErrorWipeImmediately (wiped_msg e)),
             wiped p (written (state (self w)))))
  /\ (forall e w', save_state w = (Raise e, w') ->
        is_fatal e = true /\ w' = wiped p (written (state (self w)))
        /\ forall name, flash w' !! (p +:+ "/" +:+ name) = None)
  /\ (forall pin st n e w',
        state (self w) = Some st ->
        st !! "pin_attempts_left" = Some (JInt n) ->
        let w1 := written (Some (<["pin_attempts_left" := JInt (n - 1)]> st)) in
        load_state_try w1 = (Raise e, w') ->
        unlock pin w = (Raise (CriticalErrorWipeImmediately (wiped_msg e)), wiped p w1))
  /\ (forall pin st hk e w',
        state (self w) = Some st ->
        keys (self w) !! "hmac" = Some (KBytes hk) ->
        let w1 := written (Some (<["pin" := JStr (pin_tag hk pin)]> st)) in
        load_state_try w1 = (Raise e, w') ->
        set_pin pin w = (Raise (CriticalErrorWipeImmediately (wiped_msg e)), wiped p w1))
  /\ (forall st e w',
        state (self w) = Some st ->
        let w1 := written (Some (<["pin" := JNull]> st)) in
        load_state_try w1 = (Raise e, w') ->
        unset_pin w = (Raise (CriticalErrorWipeImmediately (wiped_msg e)), wiped p w1)).
Proof.
  intros Hp Hk. cbv zeta beta. rewrite set_state_same.
  split; [by apply save_state_unfold|].
  split; [intros e w' He; by eapply save_state_fails|].
  split.
  { intros e w' Hs. rewrite (save_state_unfold w p k Hp Hk) in Hs.
    apply load_state_raise_inv in Hs as (e0 & _ & -> & ->).
    cbn [self]. rewrite Hp.
    split; [done|]. split; [done|]. intros name. apply wiped_nothing_left. }
  split.
  { intros pin st n e w' Hst Hn He. unfold unlock.
    step ltac:(by eapply state_get_run).
    step ltac:(reflexivity).
    step ltac:(by eapply state_set_run).
    eapply run_bind_raise.
    exact (save_state_fails {| self := set_state (Some _) (self w); flash := flash w |}
             w' p k e Hp Hk He). }
  split.
  { intros pin st hk e w' Hst Hhk He. unfold set_pin.
    step ltac:(by eapply keys_get_run).
    step ltac:(reflexivity).
    step ltac:(by eapply state_set_run).
    eapply run_bind_raise.
    exact (save_state_fails {| self := set_state (Some _) (self w); flash := flash w |}
             w' p k e Hp Hk He). }
  intros st e w' Hst He. unfold unset_pin.
  step ltac:(by eapply state_set_run).
  exact (save_state_fails {| self := set_state (Some _) (self w); flash := flash w |}
           w' p k e Hp Hk He).
Qed.



(** C3.  With a PIN configured and [pin_attempts_left] = [pin_attempts_max]
    = N, calls of [unlock] with wrong PINs wipe exactly on the N-th call:
    for every j < N the first j calls raise [PinError], the i-th of them
    with the message "Invalid PIN!\n<N - i> of <N> attempts left...", they
    leave the counter at N - j in [self.state] and in the signed
    [pin.json], and they leave every other file (the secret among them) as
    it was; the N-th call raises CriticalErrorWipeImmediately("No more PIN
    attempts!\nWipe!") and leaves no file below the store's directory. *)
Theorem wrong_pins_wipe_on_the_last {HS : SigLaws} {HJ : JsonLaws} (w : world) (p : string)
    (k : PrivateKey) (st : gmap string jval) (N : Z) (hk tag : string)
    (pins : list string) (last : string) :
  path (self w) = p ->
  state (self w) = Some st ->
  st !! "pin_attempts_left" = Some (JInt N) ->
  st !! "pin_attempts_max" = Some (JInt N) ->
  st !! "pin" = Some (JStr tag) ->
  keys (self w) !! "ecdsa" = Some (KPriv k) ->
  keys (self w) !! "hmac" = Some (KBytes hk) ->
  Z.of_nat (length pins) = N - 1 ->
  Forall (fun pin => pin_tag hk pin ≠ tag) (pins ++ [last]) ->
  let wrong_pin (i : nat) : result unit :=
    Raise (PinError ("Invalid PIN!" +:+ nl +:+ fmt_d (N - Z.of_nat i) +:+ " of " +:+ fmt_d N
                     +:+ " attempts left...")) in
  let wiped_out : result unit :=
    Raise (CriticalErrorWipeImmediately ("No more PIN attempts!" +:+ nl +:+ "Wipe!")) in
  (forall j : nat, (j <= length pins)%nat ->
     let wj := failed j p k st N w in
     let stj := <["pin_attempts_left" := JInt (N - Z.of_nat j)]> st in
     attempts (take j pins) w = (map wrong_pin (seq 1 j), wj)
     /\ state (self wj) = Some stj
     /\ (forall q, q ≠ p +:+ "/pin.json" -> q ≠ p +:+ "/pin.json.sig" ->
           flash wj !! q = flash w !! q)
     /\ ((0 < j)%nat -> flash wj !! (p +:+ "/pin.json") = Some (json_dumps (Some stj))))
  /\ exists w',
       attempts (pins ++ [last]) w = (map wrong_pin (seq 1 (length pins)) ++ [wiped_out], w')
       /\ forall name, flash w' !! (p +:+ "/" +:+ name) = None.
Proof.
  intros Hp Hst Hn Hmx Htag Hk Hhk Hlen Hall. cbv zeta.
  apply Forall_app in Hall as [Hall _].
  assert (Hall' : Forall (fun pin => JStr (pin_tag hk pin) ≠ JStr tag) pins).
  { eapply Forall_impl; [|exact Hall]. intros pin Hne Heq. apply Hne. congruence. }
  split.
  - intros j Hj.
    split.
    { rewrite (attempts_wrong (take j pins) w p k st N N hk (JStr tag)); try done.
      + by rewrite length_take, Nat.min_l.
      + rewrite length_take. lia.
      + by apply Forall_take. }
    split; [by apply failed_state|].
    split; [apply failed_frame|].
    intros Hpos. by apply failed_pin_json.
  - eexists. split; [by eapply (attempts_until_wipe pins last w p k st N N hk (JStr tag))|].
    intros name. apply wiped_nothing_left.
Qed.


(** C9.  [unlock] looks neither at whether a PIN is configured nor at the
    lock flag.  With no PIN configured (the stored tag is [None]) a call of
    [unlock], with any PIN, decrements the counter, saves the state and,
    while the counter stays positive, raises [PinError]: no tag equals
    [None].  So [pin_attempts_max] such calls in a row end in the wipe; and
    this is so on a device that has just been provisioned, where no PIN was
    ever set: ten calls of [unlock] wipe it. *)
Theorem unlock_without_pin_counts_down {HS : SigLaws} {HJ : JsonLaws} (w : world) (p : string)
    (k : PrivateKey) (st : gmap string jval) (n mx : Z) (hk : string) :
  path (self w) = p ->
  state (self w) = Some st ->
  st !! "pin_attempts_left" = Some (JInt n) ->
  st !! "pin_attempts_max" = Some (JInt mx) ->
  st !! "pin" = Some JNull ->
  keys (self w) !! "ecdsa" = Some (KPriv k) ->
  keys (self w) !! "hmac" = Some (KBytes hk) ->
  (forall pin, 0 < n - 1 ->
     let st' := <["pin_attempts_left" := JInt (n - 1)]> st in
     let w' := decremented p k st n w in
     unlock pin w = (Raise (PinError (pin_error_msg (fmt_d (n - 1)) (fmt_d mx))), w')
     /\ state (self w') = Some st'
     /\ flash w' !! (p +:+ "/pin.json") = Some (json_dumps (Some st')))
  /\ (forall pins last, n = mx -> Z.of_nat (length (pins ++ [last])) = mx ->
        exists w',
          attempts (pins ++ [last]) w
            = (map (pin_error mx mx) (seq 1 (length pins)) ++ [no_more_attempts], w')
          /\ forall name, flash w' !! (p +:+ "/" +:+ name) = None)
  /\ (forall rnd p0 fs pins last,
        fs !! (p0 +:+ "/secret") = None ->
        length (pins ++ [last]) = 10%nat ->
        exists w0 w',
          init rnd {| self := __init__ p0; flash := fs |} = (Ok tt, w0)
          /\ state (self w0) = Some default_state
          /\ attempts (pins ++ [last]) w0
               = (map (pin_error 10 10) (seq 1 9) ++ [no_more_attempts], w')
          /\ forall name, flash w' !! (p0 +:+ "/" +:+ name) = None).
Proof.
  intros Hp Hst Hn Hmx Htag Hk Hhk.
  assert (Hany : forall (hk' : string) (pins : list string),
            Forall (fun pin => JStr (pin_tag hk' pin) ≠ JNull) pins).
  { intros hk' pins. apply Forall_forall. intros pin _. discriminate. }
  split; [|split].
  - intros pin Hpos. cbv zeta.
    split; [by eapply unlock_wrong|].
    split; [reflexivity|].
    apply saved_pin_json.
  - intros pins last -> Hlen. rewrite length_app in Hlen. simpl in Hlen.
    eexists. split.
    + eapply (attempts_until_wipe pins last w p k st mx mx hk JNull); try done. lia.
    + intros name. apply wiped_nothing_left.
  - intros rnd p0 fs pins last Hnone Hlen. rewrite length_app in Hlen. simpl in Hlen.
    set (w0 := provisioned p0 rnd {| self := __init__ p0; flash := fs |}).
    set (k0 := ec_PrivateKey (sha256 ("ecdsa" +:+ rnd))).
    exists w0. eexists.
    split; [by apply init_fresh|].
    split; [reflexivity|].
    replace 9%nat with (length pins) by lia.
    assert (Hk0 : keys (self w0) !! "ecdsa" = Some (KPriv k0)).
    { simpl. apply lookup_union_Some_l. unfold derive_keys. by simplify_map_eq. }
    assert (Hhk0 : keys (self w0) !! "hmac" = Some (KBytes (sha256 ("hmac" +:+ rnd)))).
    { simpl. apply lookup_union_Some_l. unfold derive_keys. by simplify_map_eq. }
    split.
    + apply (attempts_until_wipe pins last w0 p0 k0 default_state 10 10
               (sha256 ("hmac" +:+ rnd)) JNull); try done. lia.
    + intros name. apply wiped_nothing_left.
Qed.

(** C5 (amended).  On a store whose PIN is [old] and whose reckless blob is
    the mnemonic [m] encrypted and signed under the keys bound to [old] (as
    [save] writes it: [save_writes_blob]; [m] is stripped, as [load_mnemonic]
    leaves it: [strip_idemp]): when more than one attempt is left and
    [pin_attempts_max] is above 1, [change_pin(old, new)] verifies and
    decrypts the blob under those keys and writes it back encrypted and
    signed under the keys bound to [new]; a following [unlock(new)] goes
    through and [load()] after it puts [m] back into [self.mnemonic]
    (returning normally when [m] is a valid mnemonic, raising
    [KeyStoreError] when it is not); a following [unlock(old)] raises
    [PinError] when the HMAC of [old] differs from the HMAC of [new].  When
    one attempt is left, or [pin_attempts_max] is 1, [change_pin(old, new)]
    with the right old PIN wipes the store and raises the fatal error
    instead: [unlock(old)], and the [unlock(new)] inside [set_pin], spend an
    attempt before they look at the PIN. *)
Theorem change_pin_rekeys_the_blob {HS : SigLaws} {HJ : JsonLaws} {HC : CipherLaws} (w : world)
    (p sec old new m : string) (st : gmap string jval) (n mx : Z) :
  path (self w) = p ->
  secret_loaded sec w ->
  state (self w) = Some st ->
  st !! "pin" = Some (JStr (pin_tag (base_hmac sec) old)) ->
  st !! "pin_attempts_left" = Some (JInt n) ->
  st !! "pin_attempts_max" = Some (JInt mx) ->
  flash w !! (p +:+ "/reckless") = Some (encrypt m (pin_aes_of sec old)) ->
  flash w !! (p +:+ "/reckless.sig")
    = Some (sig_serialize (ec_sign (pin_ecdsa_of sec old)
                                   (sha256 (encrypt m (pin_aes_of sec old))))) ->
  utf8_valid m = true ->
  strip m = m ->
  (1 < n -> 1 < mx ->
   exists w1,
     change_pin old new w = (Ok tt, w1)
     /\ flash w1 !! (p +:+ "/reckless") = Some (encrypt m (pin_aes_of sec new))
     /\ flash w1 !! (p +:+ "/reckless.sig")
          = Some (sig_serialize (ec_sign (pin_ecdsa_of sec new)
                                         (sha256 (encrypt m (pin_aes_of sec new)))))
     /\ (exists w2 w3,
           unlock new w1 = (Ok tt, w2)
           /\ load w2 = (if mnemonic_is_valid m then Ok tt
                         else Raise (KeyStoreError "Invalid mnemonic"), w3)
           /\ mnemonic (self w3) = Some m)
     /\ (hmac_sha256 (base_hmac sec) old ≠ hmac_sha256 (base_hmac sec) new ->
         exists w2,
           unlock old w1
             = (Raise (PinError ("Invalid PIN!" +:+ nl +:+ fmt_d (mx - 1) +:+ " of "
                                 +:+ fmt_d mx +:+ " attempts left...")), w2)))
  /\ (n <= 1 \/ mx <= 1 ->
      exists w',
        change_pin old new w
          = (Raise (CriticalErrorWipeImmediately ("No more PIN attempts!" +:+ nl +:+ "Wipe!")),
             w')
        /\ forall name, flash w' !! (p +:+ "/" +:+ name) = None).
Proof.
  intros Hp Hl Hst Htag Hn Hmx Hct Hsig Hutf Hstrip.
  split;
    [|by apply (change_pin_exhausted w p sec old new (encrypt m (pin_aes_of sec old)) st n mx)].
  intros Hn1 Hmx1.
  assert (Hpos : 0 < n - 1) by lia. assert (Hmxpos : 0 < mx - 1) by lia.
  set (k := base_ecdsa sec). set (hk := base_hmac sec) in *.
  set (st1 := <["pin_attempts_left" := JInt mx]> (<["pin_attempts_left" := JInt (n - 1)]> st)).
  set (st2 := <["pin" := JStr (pin_tag hk new)]> st1).
  set (st3 := <["pin_attempts_left" := JInt mx]> st2).
  set (w0 := unlocked p k st n (JInt mx) sec old w).
  set (wp := pin_set p k st1 mx (JInt mx) hk sec new w0).
  set (ct' := encrypt m (pin_aes_of sec new)).
  assert (Hchange : change_pin old new w = (Ok tt, reckless_written p ct' (pin_ecdsa_of sec new) wp)).
  { rewrite (change_pin_ok w p sec old new (encrypt m (pin_aes_of sec old)) st n mx)
      by assumption.
    unfold pin_changed. cbv zeta. by rewrite decrypt_encrypt. }
  set (w1 := reckless_written p ct' (pin_ecdsa_of sec new) wp) in *.
  (* the store after the change *)
  assert (Hp1 : path (self w1) = p) by exact Hp.
  assert (Hst1 : state (self w1) = Some st3) by apply unlocked_state.
  assert (Hl1 : secret_loaded sec w1) by apply unlocked_secret_loaded.
  destruct (secret_loaded_lookup sec w1 Hl1) as (Hk1 & Hhk1 & Hsec1).
  assert (Hleft3 : st3 !! "pin_attempts_left" = Some (JInt mx)) by apply lookup_insert_eq.
  assert (Hmax3 : st3 !! "pin_attempts_max" = Some (JInt mx)).
  { unfold st3, st2, st1. by rewrite !lookup_insert_ne. }
  assert (Hpin3 : st3 !! "pin" = Some (JStr (pin_tag hk new))).
  { unfold st3, st2. rewrite lookup_insert_ne by done. apply lookup_insert_eq. }
  assert (Hblob : flash w1 !! (p +:+ "/reckless") = Some ct').
  { unfold w1, reckless_written. cbn [flash].
    rewrite lookup_insert_ne by (apply path_neq; discriminate). apply lookup_insert_eq. }
  assert (Hblobsig : flash w1 !! (p +:+ "/reckless.sig")
                     = Some (sig_serialize (ec_sign (pin_ecdsa_of sec new) (sha256 ct')))).
  { unfold w1, reckless_written. cbn [flash]. apply lookup_insert_eq. }
  exists w1.
  split; [exact Hchange|].
  split; [exact Hblob|]. split; [exact Hblobsig|].
  split.
  - (* unlock(new), then load() *)
    set (w2 := unlocked p k st3 mx (JInt mx) sec new w1).
    destruct (unlocked_pin_keys p k st3 mx (JInt mx) sec new w1) as [Ha2 Hkp2].
    exists w2.
    exists (if mnemonic_is_valid m then mnemonic_loaded m "" w2 else mnemonic_refused m w2).
    split; [apply (unlock_right w1 p new k st3 mx hk sec (JInt mx)); assumption|].
    split.
    + rewrite (load_ok w2 p (<["pin_attempts_left" := JInt mx]> st3) (JStr (pin_tag hk new))
                 ct' (pin_aes_of sec new) (pin_ecdsa_of sec new)).
      * unfold ct'. rewrite decrypt_encrypt, load_mnemonic_run, Hstrip.
        by destruct (mnemonic_is_valid m).
      * exact Hp.
      * apply unlocked_state.
      * by rewrite lookup_insert_ne.
      * reflexivity.
      * exact Hkp2.
      * exact Ha2.
      * unfold w2. rewrite unlocked_other; [exact Hblob|apply path_neq; discriminate..].
      * unfold w2. rewrite unlocked_other; [exact Hblobsig|apply path_neq; discriminate..].
      * unfold ct'. by rewrite decrypt_encrypt.
    + destruct (mnemonic_is_valid m); cbn [self mnemonic mnemonic_loaded mnemonic_refused
                                             set_root set_mnemonic]; by rewrite Hstrip.
  - (* unlock(old) with another tag *)
    intros Hne. eexists.
    apply (unlock_wrong w1 p old k st3 mx mx hk (JStr (pin_tag hk new))); try assumption.
    intros Heq. apply Hne, pin_tag_inj. congruence.
Qed.

End properties.

(** * Further properties of the methods *)

Section more_runs.
Context `{C : Collaborators}.

#[local] Arguments save_state : simpl never.
#[local] Arguments load_state : simpl never.
#[local] Arguments wipe : simpl never.
#[local] Arguments derive_keys : simpl never.

(** The property [is_locked] on a store with a PIN and the lock closed. *)
Lemma is_locked_true (w : world) (st : gmap string jval) (tag : jval) :
  state (self w) = Some st ->
  st !! "pin" = Some tag ->
  tag ≠ JNull ->
  _is_locked (self w) = true ->
  is_locked w = (Ok true, w).
Proof.
  intros Hst Hpin Hne Hlk. unfold is_locked, is_pin_set. run. rewrite Hst, Hpin. simpl.
  rewrite bool_decide_true by done. simpl. by rewrite Hlk.
Qed.

(** [init] on a flash that holds a secret and a PIN file signed with the
    key of that secret. *)
Lemma init_existing {HS : SigLaws} {HJ : JsonLaws} (rnd p sec : string)
    (st : option (gmap string jval)) (w : world) :
  path (self w) = p ->
  flash w !! (p +:+ "/secret") = Some sec ->
  flash w !! (p +:+ "/pin.json") = Some (json_dumps st) ->
  flash w !! (p +:+ "/pin.json.sig")
    = Some (sig_serialize (ec_sign (base_ecdsa sec) (sha256 (json_dumps st)))) ->
  init rnd w
    = (Ok tt, {| self := set_state st (set_keys (derive_keys sec None ∪ keys (self w)) (self w));
                 flash := flash w |}).
Proof.
  intros Hp Hsec Hd Hs. unfold init.
  step ltac:(reflexivity).
  step ltac:(reflexivity).
  rewrite Hp.
  step ltac:(by apply load_secret_existing).
  apply load_state_ok.
  apply (load_state_try_signed
           {| self := set_keys (derive_keys sec None ∪ keys (self w)) (self w);
              flash := flash w |} p (base_ecdsa sec) st);
    [exact Hp | | exact Hd | exact Hs].
  simpl. apply lookup_union_Some_l. apply derive_keys_lookup_base.
Qed.

(** A name below the directory starts with the directory. *)
Lemma below_dir (p name : string) :
  String.prefix (p +:+ "/") (p +:+ String "/" name) = true.
Proof.
  change (String "/" name) with ("/" +:+ name). rewrite <- append_assoc. apply prefix_app.
Qed.

(** The two removals of [delete_saved]. *)
Lemma file_remove_run (w : world) (p d : string) :
  flash w !! p = Some d ->
  file_remove p w = (Ok tt, {| self := self w; flash := delete p (flash w) |}).
Proof. intros Hd. unfold file_remove. by rewrite Hd. Qed.

Lemma file_exists_missing (w : world) (p : string) :
  flash w !! p = None -> file_exists p w = (Ok false, w).
Proof.
  intros Hd. unfold file_exists. rewrite Hd. rewrite bool_decide_false; [done|].
  by intros [? ?].
Qed.


(** The files of [reckless_written]. *)
Lemma reckless_written_files (p ct : string) (kp : PrivateKey) (w : world) :
  flash (reckless_written p ct kp w) !! (p +:+ "/reckless") = Some ct
  /\ flash (reckless_written p ct kp w) !! (p +:+ "/reckless.sig")
       = Some (sig_serialize (ec_sign kp (sha256 ct))).
Proof.
  unfold reckless_written. cbn [flash]. split; [|apply lookup_insert_eq].
  rewrite lookup_insert_ne by (apply path_neq; discriminate). apply lookup_insert_eq.
Qed.

(** Without a [key] argument the two file methods use [self.idkey]. *)
Lemma sign_to_file_default (data q : string) (k : PrivateKey) (w : world) :
  idkey (self w) = Some k ->
  sign_to_file data q None w = sign_to_file data q (Some (KPriv k)) w.
Proof. intros Hk. unfold sign_to_file, key_or_idkey. run. by rewrite Hk. Qed.

Lemma verify_file_default (q : string) (k : PrivateKey) (w : world) :
  idkey (self w) = Some k ->
  verify_file q None w = verify_file q (Some (KPriv k)) w.
Proof. intros Hk. unfold verify_file, key_or_idkey. run. by rewrite Hk. Qed.

(** One call of [unlock] as a caller that goes on after exceptions sees
    it. *)
Lemma attempts_one (pin : string) (w w' : world) (r : result unit) :
  unlock pin w = (r, w') -> attempts [pin] w = ([r], w').
Proof. intros Hr. simpl. by rewrite Hr. Qed.

(** [change_pin] with the right old PIN on a store without a blob, on a
    counter that one of its two calls of [unlock] uses up. *)
Lemma change_pin_exhausted_without_blob {HS : SigLaws} {HJ : JsonLaws} (w : world)
    (p sec old new : string) (st : gmap string jval) (n mx : Z) :
  path (self w) = p ->
  secret_loaded sec w ->
  state (self w) = Some st ->
  st !! "pin" = Some (JStr (pin_tag (base_hmac sec) old)) ->
  st !! "pin_attempts_left" = Some (JInt n) ->
  st !! "pin_attempts_max" = Some (JInt mx) ->
  flash w !! (p +:+ "/reckless") = None ->
  n <= 1 \/ mx <= 1 ->
  exists w',
    change_pin old new w = (no_more_attempts, w')
    /\ forall name, flash w' !! (p +:+ "/" +:+ name) = None.
Proof.
  intros Hp Hl Hst Htag Hn Hmx Hnone Hlast.
  destruct (secret_loaded_lookup sec w Hl) as (Hk & Hhk & Hsec).
  destruct (decide (n - 1 <= 0)) as [Hle|Hpos].
  - exists (wiped p (decremented p (base_ecdsa sec) st n w)).
    split; [|intros name; apply wiped_nothing_left].
    unfold change_pin. eapply run_bind_raise.
    by apply (unlock_exhausted w p old (base_ecdsa sec) st n).
  - assert (Hmxle : mx - 1 <= 0) by lia.
    pose proof (unlocked_secret_loaded p (base_ecdsa sec) st n (JInt mx) sec old w) as Hl1.
    destruct (secret_loaded_lookup sec _ Hl1) as (Hk1 & Hhk1 & Hsec1).
    eexists. split; [|intros name; apply wiped_nothing_left].
    unfold change_pin.
    step ltac:(apply (unlock_right w p old (base_ecdsa sec) st n (base_hmac sec) sec (JInt mx));
               [assumption.. | lia]).
    step ltac:(reflexivity).
    rewrite unlocked_path, Hp.
    step ltac:(apply file_exists_missing; rewrite unlocked_other;
               [exact Hnone | apply path_neq; discriminate..]).
    step ltac:(reflexivity).
    eapply run_bind_raise.
    apply (set_pin_exhausted _ p new (base_ecdsa sec) (base_hmac sec)
             (<["pin_attempts_left" := JInt mx]>
                (<["pin_attempts_left" := JInt (n - 1)]> st)) mx);
      [exact Hp | reflexivity | apply lookup_insert_eq | exact Hk1 | exact Hhk1 | exact Hmxle].
Qed.

End more_runs.

Section more_properties.
Context `{C : Collaborators}.

#[local] Arguments save_state : simpl never.
#[local] Arguments load_state : simpl never.
#[local] Arguments wipe : simpl never.
#[local] Arguments derive_keys : simpl never.

(** X1.  A store with a PIN and the lock closed hands out nothing: [save()]
    and [load()] raise KeyStoreError("Keystore is locked"), [get_xpub(path)]
    raises KeyStoreError("Keystore is not ready") and [is_ready] is False,
    whatever mnemonic, root key, keys and files there are; none of the four
    changes the object or the flash. *)
Theorem locked_store_hands_out_nothing `{D : Derivation} (w : world) (st : gmap string jval)
    (tag : jval) (derivation : string) :
  state (self w) = Some st ->
  st !! "pin" = Some tag ->
  tag ≠ JNull ->
  _is_locked (self w) = true ->
  save w = (Raise (KeyStoreError "Keystore is locked"), w)
  /\ load w = (Raise (KeyStoreError "Keystore is locked"), w)
  /\ get_xpub derivation w = (Raise (KeyStoreError "Keystore is not ready"), w)
  /\ is_ready w = (Ok false, w).
Proof.
  intros Hst Hpin Hne Hlk.
  pose proof (is_locked_true w st tag Hst Hpin Hne Hlk) as Hlocked.
  split; [|split; [|split]].
  - unfold save. step ltac:(exact Hlocked). reflexivity.
  - unfold load. step ltac:(exact Hlocked). reflexivity.
  - unfold get_xpub. step ltac:(exact Hlocked). reflexivity.
  - unfold is_ready. step ltac:(reflexivity). rewrite Hst.
    step ltac:(exact Hlocked). reflexivity.
Qed.

(** X2.  [lock()] sets the lock flag and nothing else: it returns True
    exactly when a PIN is set, and [is_locked] says the same afterwards; the
    keys in [self.keys] (those bound to the PIN among them), the mnemonic,
    the root key and the flash are as they were.  A store without a PIN
    cannot be locked. *)
Theorem lock_sets_the_flag_only (w : world) (st : gmap string jval) (tag : jval) :
  state (self w) = Some st ->
  st !! "pin" = Some tag ->
  exists w',
    lock w = (Ok (bool_decide (tag ≠ JNull)), w')
    /\ is_locked w' = (Ok (bool_decide (tag ≠ JNull)), w')
    /\ _is_locked (self w') = true
    /\ keys (self w') = keys (self w)
    /\ mnemonic (self w') = mnemonic (self w)
    /\ root (self w') = root (self w)
    /\ state (self w') = state (self w)
    /\ flash w' = flash w.
Proof.
  intros Hst Hpin.
  exists {| self := set__is_locked true (self w); flash := flash w |}.
  assert (Hl : is_locked {| self := set__is_locked true (self w); flash := flash w |}
               = (Ok (bool_decide (tag ≠ JNull)),
                  {| self := set__is_locked true (self w); flash := flash w |})).
  { unfold is_locked, is_pin_set. run. rewrite Hst, Hpin. simpl.
    by destruct (bool_decide (tag ≠ JNull)). }
  split; [|split; [exact Hl | done]].
  unfold lock. step ltac:(reflexivity). exact Hl.
Qed.

(** X3.  The last attempt is lost whatever is entered: when
    [pin_attempts_left] is 1 (or less), [unlock(pin)] with the right PIN
    raises CriticalErrorWipeImmediately all the same, because the counter
    is checked before the PIN is.  Every file below the store's directory
    is gone afterwards; [self.keys] still holds what it held and the lock
    flag is as it was. *)
Theorem unlock_last_attempt_is_lost {HS : SigLaws} {HJ : JsonLaws} (w : world)
    (p pin : string) (k : PrivateKey) (st : gmap string jval) (n : Z) (hk : string) :
  path (self w) = p ->
  state (self w) = Some st ->
  st !! "pin_attempts_left" = Some (JInt n) ->
  st !! "pin" = Some (JStr (pin_tag hk pin)) ->
  keys (self w) !! "ecdsa" = Some (KPriv k) ->
  keys (self w) !! "hmac" = Some (KBytes hk) ->
  n <= 1 ->
  exists w',
    unlock pin w = (no_more_attempts, w')
    /\ (forall name, flash w' !! (p +:+ "/" +:+ name) = None)
    /\ (forall q, String.prefix (p +:+ "/") q = false -> flash w' !! q = flash w !! q)
    /\ keys (self w') = keys (self w)
    /\ _is_locked (self w') = _is_locked (self w)
    /\ state (self w') = Some (<["pin_attempts_left" := JInt (n - 1)]> st).
Proof.
  intros Hp Hst Hn Htag Hk Hhk Hle.
  exists (wiped p (decremented p k st n w)).
  split; [apply (unlock_exhausted w p pin k st n); [done..|lia]|].
  split; [intros name; apply wiped_nothing_left|].
  split; [|done].
  intros q Hq. cbn [wiped flash decremented persisted].
  rewrite wiped_elsewhere by exact Hq.
  apply saved_other; intros ->; rewrite below_dir in Hq; discriminate.
Qed.

(** X4.  [set_pin(pin)] asks for no old PIN and does not look at the lock:
    on any store whose secret is loaded and whose counter is above 1, locked
    or not, with or without a PIN, it stores the tag of the new PIN, runs
    [unlock(pin)] and leaves the store open, with the counter at the maximum
    and the keys bound to the new PIN in [self.keys]; the new state is on
    the flash, signed, and no other file changes. *)
Theorem set_pin_asks_no_old_pin {HS : SigLaws} {HJ : JsonLaws} (w : world) (p sec pin : string)
    (st : gmap string jval) (n : Z) (vmax : jval) :
  path (self w) = p ->
  secret_loaded sec w ->
  state (self w) = Some st ->
  st !! "pin_attempts_left" = Some (JInt n) ->
  st !! "pin_attempts_max" = Some vmax ->
  0 < n - 1 ->
  let st' := <["pin_attempts_left" := vmax]> (<["pin" := JStr (pin_tag (base_hmac sec) pin)]> st) in
  exists w',
    set_pin pin w = (Ok tt, w')
    /\ state (self w') = Some st'
    /\ is_locked w' = (Ok false, w')
    /\ keys (self w') !! "pin_aes" = Some (KBytes (pin_aes_of sec pin))
    /\ keys (self w') !! "pin_ecdsa" = Some (KPriv (pin_ecdsa_of sec pin))
    /\ flash w' !! (p +:+ "/pin.json") = Some (json_dumps (Some st'))
    /\ flash w' !! (p +:+ "/pin.json.sig")
         = Some (sig_serialize (ec_sign (base_ecdsa sec) (sha256 (json_dumps (Some st')))))
    /\ forall q, q ≠ p +:+ "/pin.json" -> q ≠ p +:+ "/pin.json.sig" ->
         flash w' !! q = flash w !! q.
Proof.
  intros Hp Hl Hst Hn Hmx Hpos. cbv zeta.
  destruct (secret_loaded_lookup sec w Hl) as (Hk & Hhk & Hsec).
  set (st1 := <["pin" := JStr (pin_tag (base_hmac sec) pin)]> st).
  exists (pin_set p (base_ecdsa sec) st n vmax (base_hmac sec) sec pin w).
  split; [by apply set_pin_ok|].
  unfold pin_set. fold st1.
  pose proof (unlocked_state p (base_ecdsa sec) st1 n vmax sec pin
                (persisted p (base_ecdsa sec) st1 w)) as Hst'.
  split; [exact Hst'|].
  split.
  { eapply is_locked_false; [exact Hst' | | by right].
    rewrite lookup_insert_ne by done. apply lookup_insert_eq. }
  split; [apply unlocked_pin_keys|]. split; [apply unlocked_pin_keys|].
  split; [apply unlocked_pin_json|]. split; [apply unlocked_pin_json|].
  intros q Hq1 Hq2. rewrite unlocked_other by done. by apply saved_other.
Qed.

(** X5.  [set_pin(pin)] spends an attempt: it ends with [unlock(pin)], which
    decrements the counter before it checks anything.  On a store with one
    attempt left (or with [pin_attempts_max] = 1) setting a PIN therefore
    saves the tag of the new PIN, then wipes the store and raises
    CriticalErrorWipeImmediately. *)
Theorem set_pin_on_the_last_attempt_wipes {HS : SigLaws} {HJ : JsonLaws} (w : world)
    (p pin : string) (k : PrivateKey) (hk : string) (st : gmap string jval) (n : Z) :
  path (self w) = p ->
  state (self w) = Some st ->
  st !! "pin_attempts_left" = Some (JInt n) ->
  keys (self w) !! "ecdsa" = Some (KPriv k) ->
  keys (self w) !! "hmac" = Some (KBytes hk) ->
  n <= 1 ->
  exists w',
    set_pin pin w = (no_more_attempts, w')
    /\ (forall name, flash w' !! (p +:+ "/" +:+ name) = None)
    /\ state (self w')
       = Some (<["pin_attempts_left" := JInt (n - 1)]> (<["pin" := JStr (pin_tag hk pin)]> st)).
Proof.
  intros Hp Hst Hn Hk Hhk Hle.
  set (st1 := <["pin" := JStr (pin_tag hk pin)]> st).
  exists (wiped p (decremented p k st1 n (persisted p k st1 w))).
  split; [|split; [intros name; apply wiped_nothing_left | done]].
  unfold set_pin.
  step ltac:(eapply keys_get_run; exact Hhk).
  step ltac:(reflexivity).
  step ltac:(by eapply state_set_run).
  step ltac:(apply (save_state_ok _ p k); [exact Hp | exact Hk]).
  apply (unlock_exhausted _ p pin k st1 n);
    [exact Hp | reflexivity | unfold st1; by rewrite lookup_insert_ne | exact Hk | lia].
Qed.

(** X6.  [unset_pin()] asks for no PIN and does not look at the lock: on a
    locked store it stores a null PIN and saves the state, after which
    [is_locked] is False although the lock flag is still set.  The attempt
    counter is not touched, and an object created afterwards over the same
    flash reads the state without a PIN. *)
Theorem unset_pin_opens_the_store {HS : SigLaws} {HJ : JsonLaws} (w : world) (p : string)
    (k : PrivateKey) (st : gmap string jval) :
  path (self w) = p ->
  state (self w) = Some st ->
  keys (self w) !! "ecdsa" = Some (KPriv k) ->
  let st' := <["pin" := JNull]> st in
  exists w',
    unset_pin w = (Ok tt, w')
    /\ state (self w') = Some st'
    /\ st' !! "pin_attempts_left" = st !! "pin_attempts_left"
    /\ is_locked w' = (Ok false, w')
    /\ _is_locked (self w') = _is_locked (self w)
    /\ keys (self w') = keys (self w)
    /\ forall s0, path s0 = p -> keys s0 !! "ecdsa" = Some (KPriv k) ->
         load_state {| self := s0; flash := flash w' |}
           = (Ok tt, {| self := set_state (Some st') s0; flash := flash w' |}).
Proof.
  intros Hp Hst Hk. cbv zeta.
  exists (persisted p k (<["pin" := JNull]> st) w).
  split; [by apply set_and_save|].
  split; [reflexivity|].
  split; [by rewrite lookup_insert_ne|].
  split; [eapply is_locked_false; [reflexivity | apply lookup_insert_eq | by left]|].
  split; [reflexivity|]. split; [reflexivity|].
  intros s0 Hp0 Hk0. by apply saved_reload.
Qed.

(** X7.  [init()] on a new object over a flash that holds a secret and a PIN
    state signed with the key of that secret loads that state and derives
    the keys from the stored secret; the random generator is not used and
    nothing is written.  The store comes up locked exactly when the saved
    state has a PIN, and without the keys bound to the PIN. *)
Theorem init_reloads_the_saved_state {HS : SigLaws} {HJ : JsonLaws} (rnd p sec : string)
    (st : gmap string jval) (tag : jval) (fs : gmap string string) :
  fs !! (p +:+ "/secret") = Some sec ->
  fs !! (p +:+ "/pin.json") = Some (json_dumps (Some st)) ->
  fs !! (p +:+ "/pin.json.sig")
    = Some (sig_serialize (ec_sign (base_ecdsa sec) (sha256 (json_dumps (Some st))))) ->
  st !! "pin" = Some tag ->
  init rnd {| self := __init__ p; flash := fs |} = (Ok tt, booted p sec (Some st) fs)
  /\ is_locked (booted p sec (Some st) fs)
     = (Ok (bool_decide (tag ≠ JNull)), booted p sec (Some st) fs)
  /\ secret_loaded sec (booted p sec (Some st) fs)
  /\ keys (self (booted p sec (Some st) fs)) !! "pin_aes" = None
  /\ keys (self (booted p sec (Some st) fs)) !! "pin_ecdsa" = None.
Proof.
  intros Hsec Hd Hs Htag.
  split.
  { pose proof (init_existing rnd p sec (Some st) {| self := __init__ p; flash := fs |}
                  eq_refl Hsec Hd Hs) as Hinit.
    cbn [self flash] in Hinit. exact Hinit. }
  split.
  { unfold is_locked, is_pin_set. run. rewrite Htag. simpl.
    by destruct (bool_decide (tag ≠ JNull)). }
  split; [apply map_union_subseteq_l|].
  cbn [booted self keys set_state set_keys]. rewrite (right_id_L ∅ (∪)).
  unfold derive_keys. split; by simplify_map_eq.
Qed.

(** X8.  [init()] fails only fatally: whatever the object and the flash,
    when [init()] raises, the error is CriticalErrorWipeImmediately and no
    file is left below the store's directory.  ([load_secret] catches every
    error of reading the secret and [load_state] turns every error into the
    wipe; a write to the flash does not fail here.) *)
Theorem init_fails_only_fatally (rnd : string) (w w' : world) (e : exn) :
  init rnd w = (Raise e, w') ->
  is_fatal e = true
  /\ forall name, flash w' !! (path (self w) +:+ "/" +:+ name) = None.
Proof.
  intros Hrun.
  destruct (load_secret_loads rnd (path (self w)) w) as (sec & w1 & Hload & _ & _).
  assert (Hp1 : path (self w1) = path (self w)).
  { destruct (flash w !! (path (self w) +:+ "/secret")) as [s|] eqn:E.
    - rewrite (load_secret_existing rnd _ s w E) in Hload. by simplify_eq.
    - rewrite (load_secret_fresh rnd _ w E) in Hload. by simplify_eq. }
  assert (Hinit : init rnd w = load_state w1).
  { unfold init. step ltac:(reflexivity). step ltac:(reflexivity).
    step ltac:(exact Hload). reflexivity. }
  rewrite Hinit in Hrun.
  destruct (load_state_raise_inv _ _ _ Hrun) as (e0 & _ & -> & ->).
  split; [reflexivity|]. intros name. rewrite Hp1. apply wiped_nothing_left.
Qed.

(** X9.  [init()] on a flash without a [secret] file provisions the store:
    the secret the generator returns is written, and with it the default PIN
    state (no PIN, 10 attempts of 10), signed, whatever [pin.json] held
    before: a lost secret file resets the PIN.  The store is not locked, the
    keys of the new secret are in [self.keys], and every other file (an old
    reckless blob among them) is left as it was. *)
Theorem init_without_secret_provisions {HS : SigLaws} {HJ : JsonLaws} (rnd p : string)
    (w : world) :
  path (self w) = p ->
  flash w !! (p +:+ "/secret") = None ->
  exists w',
    init rnd w = (Ok tt, w')
    /\ flash w' !! (p +:+ "/secret") = Some rnd
    /\ flash w' !! (p +:+ "/pin.json") = Some (json_dumps (Some default_state))
    /\ state (self w') = Some default_state
    /\ is_locked w' = (Ok false, w')
    /\ secret_loaded rnd w'
    /\ forall q, q ≠ p +:+ "/secret" -> q ≠ p +:+ "/pin.json" -> q ≠ p +:+ "/pin.json.sig" ->
         flash w' !! q = flash w !! q.
Proof.
  intros Hp Hnone. exists (provisioned p rnd w).
  split; [by apply init_fresh|].
  split.
  { cbn [provisioned flash]. rewrite !lookup_insert_ne by (apply path_neq; discriminate).
    apply lookup_insert_eq. }
  split; [apply lookup_insert_eq|].
  split; [reflexivity|].
  split; [eapply is_locked_false; [reflexivity | reflexivity | by left]|].
  split; [apply map_union_subseteq_l|].
  intros q H1 H2 H3. cbn [provisioned flash]. by rewrite !lookup_insert_ne.
Qed.

(** X10.  The reckless storage needs the keys bound to a PIN: on a store
    that is not locked but never went through [unlock] (no PIN was set since
    the boot), [save()] raises KeyError('pin_aes') before it writes anything,
    and [load()] of a blob that is there raises KeyError('pin_ecdsa');
    neither is a KeyStoreError, and neither changes the object or the
    flash. *)
Theorem reckless_storage_needs_the_pin_keys (w : world) (p : string) (st : gmap string jval)
    (tag : jval) :
  path (self w) = p ->
  state (self w) = Some st ->
  st !! "pin" = Some tag ->
  tag = JNull \/ _is_locked (self w) = false ->
  (forall m, mnemonic (self w) = Some m -> keys (self w) !! "pin_aes" = None ->
     save w = (Raise (KeyError "pin_aes"), w))
  /\ (forall ct, flash w !! (p +:+ "/reckless") = Some ct ->
        keys (self w) !! "pin_ecdsa" = None ->
        load w = (Raise (KeyError "pin_ecdsa"), w)).
Proof.
  intros Hp Hst Hpin Hopen.
  pose proof (is_locked_false w st tag Hst Hpin Hopen) as Hlk.
  split.
  - intros m Hm Hnone. unfold save.
    step ltac:(exact Hlk). step ltac:(reflexivity). rewrite Hm.
    unfold keys_get. run. by rewrite Hnone.
  - intros ct Hct Hnone. unfold load.
    step ltac:(exact Hlk). step ltac:(reflexivity). rewrite Hp.
    step ltac:(eapply file_exists_run; exact Hct). cbn [negb].
    unfold keys_get. run. by rewrite Hnone.
Qed.


(** X12.  [load_mnemonic] stores the phrase before it checks it: with a
    phrase that is not valid it raises KeyStoreError("Invalid mnemonic"),
    but [self.mnemonic] is the rejected phrase from then on, beside the root
    key, fingerprint and identity key loaded before.  A [save()] on the open
    store then writes the rejected phrase to the flash, encrypted and
    signed, and raises KeyStoreError("Invalid mnemonic") only from its final
    [load()]: the blob stays. *)
Theorem rejected_mnemonic_stays_and_is_saved {HS : SigLaws} {HC : CipherLaws}
    (w : world) (m password : string) :
  mnemonic_is_valid (strip m) = false ->
  exists w1,
    load_mnemonic (Some m) password w = (Raise (KeyStoreError "Invalid mnemonic"), w1)
    /\ mnemonic (self w1) = Some (strip m)
    /\ root (self w1) = root (self w)
    /\ fingerprint (self w1) = fingerprint (self w)
    /\ idkey (self w1) = idkey (self w)
    /\ flash w1 = flash w
    /\ forall p st tag a kp,
         path (self w) = p ->
         state (self w) = Some st ->
         st !! "pin" = Some tag ->
         _is_locked (self w) = false ->
         keys (self w) !! "pin_ecdsa" = Some (KPriv kp) ->
         keys (self w) !! "pin_aes" = Some (KBytes a) ->
         utf8_valid (strip m) = true ->
         exists w2,
           save w1 = (Raise (KeyStoreError "Invalid mnemonic"), w2)
           /\ flash w2 !! (p +:+ "/reckless") = Some (encrypt (strip m) a)
           /\ flash w2 !! (p +:+ "/reckless.sig")
                = Some (sig_serialize (ec_sign kp (sha256 (encrypt (strip m) a)))).
Proof.
  intros Hbad. exists (mnemonic_refused m w).
  split; [by rewrite load_mnemonic_run, Hbad|].
  do 5 (split; [reflexivity|]).
  intros p st tag a kp Hp Hst Hpin Hlk Hkp Ha Hutf.
  set (w0 := reckless_written p (encrypt (strip m) a) kp (mnemonic_refused m w)).
  exists (mnemonic_refused (strip m) w0).
  destruct (reckless_written_files p (encrypt (strip m) a) kp (mnemonic_refused m w))
    as [Hct Hsig].
  split; [|split; [exact Hct | exact Hsig]].
  rewrite (save_writes_blob (mnemonic_refused m w) p st tag (strip m) a kp);
    [| exact Hp | exact Hst | exact Hpin | exact Hlk | reflexivity | exact Hkp | exact Ha
     | exact Hutf].
  rewrite load_mnemonic_run, strip_idemp, Hbad. reflexivity.
Qed.

(** X13.  [delete_saved()] removes the blob and its signature and nothing
    else, and it does not look at the lock: it works on a locked store.
    After it a second [delete_saved()] raises KeyStoreError("Secret is not
    saved. No need to delete anything."), and [load()] on the open store
    raises KeyStoreError("Key is not saved"); the mnemonic in memory is not
    cleared. *)
Theorem delete_saved_removes_the_blob (w : world) (p ct sg : string) :
  path (self w) = p ->
  flash w !! (p +:+ "/reckless") = Some ct ->
  flash w !! (p +:+ "/reckless.sig") = Some sg ->
  delete_saved w = (Ok tt, blob_deleted p w)
  /\ flash (blob_deleted p w) !! (p +:+ "/reckless") = None
  /\ flash (blob_deleted p w) !! (p +:+ "/reckless.sig") = None
  /\ (forall q, q ≠ p +:+ "/reckless" -> q ≠ p +:+ "/reckless.sig" ->
        flash (blob_deleted p w) !! q = flash w !! q)
  /\ self (blob_deleted p w) = self w
  /\ delete_saved (blob_deleted p w)
     = (Raise (KeyStoreError "Secret is not saved. No need to delete anything."),
        blob_deleted p w)
  /\ (forall st tag, state (self w) = Some st -> st !! "pin" = Some tag ->
        tag = JNull \/ _is_locked (self w) = false ->
        load (blob_deleted p w) = (Raise (KeyStoreError "Key is not saved"), blob_deleted p w)).
Proof.
  intros Hp Hct Hsg.
  assert (Hgone : flash (blob_deleted p w) !! (p +:+ "/reckless") = None).
  { cbn [blob_deleted flash]. rewrite lookup_delete_ne by (apply path_neq; discriminate).
    apply lookup_delete_eq. }
  split.
  { unfold delete_saved. step ltac:(reflexivity). rewrite Hp.
    step ltac:(eapply file_exists_run; exact Hct). cbn [negb].
    unfold try_except.
    assert (Hrm : (file_remove (p +:+ "/reckless");; file_remove (p +:+ "/reckless.sig")) w
                  = (Ok tt, blob_deleted p w)).
    { step ltac:(eapply file_remove_run; exact Hct).
      eapply file_remove_run. cbn [flash].
      rewrite lookup_delete_ne by (apply path_neq; discriminate). exact Hsg. }
    by rewrite Hrm. }
  split; [exact Hgone|].
  split; [apply lookup_delete_eq|].
  split.
  { intros q H1 H2. cbn [blob_deleted flash]. by rewrite !lookup_delete_ne. }
  split; [reflexivity|].
  split.
  { unfold delete_saved. step ltac:(reflexivity). cbn [blob_deleted self]. rewrite Hp.
    step ltac:(apply file_exists_missing; exact Hgone). reflexivity. }
  intros st tag Hst Hpin Hopen. unfold load.
  step ltac:(apply (is_locked_false (blob_deleted p w) st tag Hst Hpin Hopen)).
  step ltac:(reflexivity). cbn [blob_deleted self]. rewrite Hp.
  step ltac:(apply file_exists_missing; exact Hgone). reflexivity.
Qed.

(** X14.  How [delete_saved()] fails.  Without a blob it raises
    KeyStoreError("Secret is not saved. No need to delete anything.") and
    changes nothing.  With a blob but no signature file it removes the blob,
    fails on the second removal and raises KeyStoreError("Failed to delete
    from memory"): the blob is gone all the same. *)
Theorem delete_saved_failures (w : world) (p : string) :
  path (self w) = p ->
  (flash w !! (p +:+ "/reckless") = None ->
     delete_saved w
       = (Raise (KeyStoreError "Secret is not saved. No need to delete anything."), w))
  /\ (forall ct, flash w !! (p +:+ "/reckless") = Some ct ->
        flash w !! (p +:+ "/reckless.sig") = None ->
        delete_saved w
          = (Raise (KeyStoreError "Failed to delete from memory"),
             {| self := self w; flash := delete (p +:+ "/reckless") (flash w) |})).
Proof.
  intros Hp. split.
  - intros Hnone. unfold delete_saved. step ltac:(reflexivity). rewrite Hp.
    step ltac:(apply file_exists_missing; exact Hnone). reflexivity.
  - intros ct Hct Hnone. unfold delete_saved. step ltac:(reflexivity). rewrite Hp.
    step ltac:(eapply file_exists_run; exact Hct). cbn [negb].
    unfold try_except.
    assert (Hrm : (file_remove (p +:+ "/reckless");; file_remove (p +:+ "/reckless.sig")) w
                  = (Raise (OSError "ENOENT"),
                     {| self := self w; flash := delete (p +:+ "/reckless") (flash w) |})).
    { step ltac:(eapply file_remove_run; exact Hct).
      unfold file_remove. cbn [flash].
      rewrite lookup_delete_ne by (apply path_neq; discriminate). by rewrite Hnone. }
    by rewrite Hrm.
Qed.

(** X15.  The default key of [sign_to_file] and [verify_file] is
    [self.idkey].  Before a mnemonic is loaded there is none, and both raise
    KeyStoreError("Pass the key please") without touching a file.  After
    [load_mnemonic(m, password)] it is the key of the hardened child 0x1D of
    the root: a payload written and signed without a [key] argument is
    signed with that key and [verify_file] without a [key] argument returns
    it. *)
Theorem idkey_is_the_default_key {HS : SigLaws} (w : world) (payload q : string) :
  (idkey (self w) = None ->
     sign_to_file payload q None w = (Raise (KeyStoreError "Pass the key please"), w)
     /\ verify_file q None w = (Raise (KeyStoreError "Pass the key please"), w))
  /\ (forall m password, mnemonic_is_valid (strip m) = true ->
        exists w1 w2,
          load_mnemonic (Some m) password w = (Ok tt, w1)
          /\ (file_write q payload;; sign_to_file payload (q +:+ ".sig") None) w1 = (Ok tt, w2)
          /\ flash w2 !! (q +:+ ".sig")
               = Some (sig_serialize (ec_sign (idkey_of m password) (sha256 payload)))
          /\ verify_file q None w2 = (Ok payload, w2)).
Proof.
  split.
  - intros Hnone. unfold sign_to_file, verify_file, key_or_idkey. run. by rewrite Hnone.
  - intros m password Hvalid.
    set (w1 := mnemonic_loaded m password w).
    set (sg := sig_serialize (ec_sign (idkey_of m password) (sha256 payload))).
    exists w1, {| self := self w1; flash := <[q +:+ ".sig" := sg]> (<[q := payload]> (flash w1)) |}.
    split; [by rewrite load_mnemonic_run, Hvalid|].
    split.
    { step ltac:(reflexivity).
      rewrite (sign_to_file_default _ _ (idkey_of m password)) by reflexivity.
      rewrite sign_to_file_run. reflexivity. }
    split; [apply lookup_insert_eq|].
    rewrite (verify_file_default _ (idkey_of m password)) by reflexivity.
    apply verify_file_signed; cbn [flash]; [|apply lookup_insert_eq].
    rewrite lookup_insert_ne by (intros Heq; by apply (sig_path_neq q)).
    apply lookup_insert_eq.
Qed.

(** X16.  [verify_file] only reads, and it returns nothing unsigned:
    whatever it does, the object and the flash are as before; and when it
    returns [data], then [data] is the content of the file, the file beside
    it parses as a signature, and that signature verifies on SHA256([data])
    under the public key of the key that was passed (or of [self.idkey]).
    No assumption is made on the signature primitive. *)
Theorem verify_file_returns_only_signed_data (w : world) (p : string) (key : option kval) :
  (verify_file p key w).2 = w
  /\ forall data, (verify_file p key w).1 = Ok data ->
       flash w !! p = Some data
       /\ exists k sigb sig,
            key_or_idkey key (self w) = Some (KPriv k)
            /\ flash w !! (p +:+ ".sig") = Some sigb
            /\ sig_parse sigb = Ok sig
            /\ ec_verify (ec_get_public_key k) sig (sha256 data) = true.
Proof.
  unfold verify_file. run.
  destruct (key_or_idkey key (self w)) as [[b|k]|]; simpl.
  - destruct (flash w !! p) as [d|]; simpl; [|done].
    destruct (flash w !! (p +:+ ".sig")) as [sigb|]; simpl; [|done].
    by destruct (sig_parse sigb).
  - destruct (flash w !! p) as [d|]; simpl; [|done].
    destruct (flash w !! (p +:+ ".sig")) as [sigb|]; simpl; [|done].
    destruct (sig_parse sigb) as [sig|e] eqn:Hparse; simpl; [|done].
    destruct (ec_verify (ec_get_public_key k) sig (sha256 d)) eqn:Hver; simpl; [|done].
    split; [done|]. intros data [= <-]. split; [done|]. by exists k, sigb, sig.
  - done.
Qed.

(** X17.  The right PIN after wrong ones: while fewer than [n] - 1 wrong
    PINs were entered on a store with [n] attempts left, the i-th of them
    raises PinError("Invalid PIN!\n<n - i> of <max> attempts left..."), and
    [unlock] with the right PIN then returns, sets the counter back to the
    maximum, opens the lock and derives the keys bound to the PIN. *)
Theorem right_pin_after_wrong_ones {HS : SigLaws} {HJ : JsonLaws} (pins : list string)
    (pin : string) (w : world) (p sec : string) (st : gmap string jval) (n mx : Z) :
  path (self w) = p ->
  secret_loaded sec w ->
  state (self w) = Some st ->
  st !! "pin_attempts_left" = Some (JInt n) ->
  st !! "pin_attempts_max" = Some (JInt mx) ->
  st !! "pin" = Some (JStr (pin_tag (base_hmac sec) pin)) ->
  Z.of_nat (length pins) < n - 1 ->
  Forall (fun x => pin_tag (base_hmac sec) x ≠ pin_tag (base_hmac sec) pin) pins ->
  let wrong_pin (i : nat) : result unit :=
    Raise (PinError ("Invalid PIN!" +:+ nl +:+ fmt_d (n - Z.of_nat i) +:+ " of " +:+ fmt_d mx
                     +:+ " attempts left...")) in
  exists w',
    attempts (pins ++ [pin]) w = (map wrong_pin (seq 1 (length pins)) ++ [Ok tt], w')
    /\ state (self w') = Some (<["pin_attempts_left" := JInt mx]> st)
    /\ _is_locked (self w') = false
    /\ keys (self w') !! "pin_aes" = Some (KBytes (pin_aes_of sec pin))
    /\ keys (self w') !! "pin_ecdsa" = Some (KPriv (pin_ecdsa_of sec pin)).
Proof.
  intros Hp Hl Hst Hn Hmx Htag Hlen Hall. cbv zeta.
  destruct (secret_loaded_lookup sec w Hl) as (Hk & Hhk & Hsec).
  set (j := length pins) in *.
  set (wj := failed j p (base_ecdsa sec) st n w).
  set (stj := <["pin_attempts_left" := JInt (n - Z.of_nat j)]> st).
  destruct (failed_frame j p (base_ecdsa sec) st n w) as (Hpj & Hks & _ & _).
  pose proof (failed_state j p (base_ecdsa sec) st n w Hst Hn) as Hstj.
  exists (unlocked p (base_ecdsa sec) stj (n - Z.of_nat j) (JInt mx) sec pin wj).
  split.
  { rewrite attempts_app.
    rewrite (attempts_wrong pins w p (base_ecdsa sec) st n mx (base_hmac sec)
               (JStr (pin_tag (base_hmac sec) pin)));
      [|done|done|done|done|done|done|done|fold j; lia|].
    2:{ eapply Forall_impl; [|exact Hall]. intros x Hx [= Heq]. by apply Hx. }
    fold j. fold wj.
    assert (Hu : unlock pin wj
                 = (Ok tt, unlocked p (base_ecdsa sec) stj (n - Z.of_nat j) (JInt mx) sec pin wj)).
    { apply (unlock_right wj p pin (base_ecdsa sec) stj (n - Z.of_nat j) (base_hmac sec)
               sec (JInt mx)).
      - unfold wj. congruence.
      - exact Hstj.
      - apply lookup_insert_eq.
      - unfold stj. by rewrite lookup_insert_ne.
      - unfold stj. by rewrite lookup_insert_ne.
      - unfold wj. by rewrite Hks.
      - unfold wj. by rewrite Hks.
      - unfold wj. by rewrite Hks.
      - lia. }
    by rewrite (attempts_one pin wj _ _ Hu). }
  split.
  { rewrite unlocked_state. unfold stj. by rewrite insert_insert_eq. }
  split; [reflexivity|]. apply unlocked_pin_keys.
Qed.


(** X19.  [change_pin(old, new)] with the right old PIN on a store without
    a blob.  With more than one attempt left and [pin_attempts_max] above 1
    it changes the PIN and creates no blob: the tag of the new PIN is
    stored, the counter is at the maximum, the store is open with the keys
    bound to the new PIN, and only [pin.json] and its signature were
    written.  With one attempt left, or a maximum of 1, it wipes the store
    and raises CriticalErrorWipeImmediately instead: one of the two calls of
    [unlock] inside [change_pin] uses the counter up. *)
Theorem change_pin_without_a_blob {HS : SigLaws} {HJ : JsonLaws} (w : world)
    (p sec old new : string) (st : gmap string jval) (n mx : Z) :
  path (self w) = p ->
  secret_loaded sec w ->
  state (self w) = Some st ->
  st !! "pin" = Some (JStr (pin_tag (base_hmac sec) old)) ->
  st !! "pin_attempts_left" = Some (JInt n) ->
  st !! "pin_attempts_max" = Some (JInt mx) ->
  flash w !! (p +:+ "/reckless") = None ->
  (1 < n -> 1 < mx ->
   exists w' st',
     change_pin old new w = (Ok tt, w')
     /\ state (self w') = Some st'
     /\ st' !! "pin" = Some (JStr (pin_tag (base_hmac sec) new))
     /\ st' !! "pin_attempts_left" = Some (JInt mx)
     /\ _is_locked (self w') = false
     /\ keys (self w') !! "pin_aes" = Some (KBytes (pin_aes_of sec new))
     /\ keys (self w') !! "pin_ecdsa" = Some (KPriv (pin_ecdsa_of sec new))
     /\ forall q, q ≠ p +:+ "/pin.json" -> q ≠ p +:+ "/pin.json.sig" ->
          flash w' !! q = flash w !! q)
  /\ (n <= 1 \/ mx <= 1 ->
      exists w',
        change_pin old new w
          = (Raise (CriticalErrorWipeImmediately ("No more PIN attempts!" +:+ nl +:+ "Wipe!")),
             w')
        /\ forall name, flash w' !! (p +:+ "/" +:+ name) = None).
Proof.
  intros Hp Hl Hst Htag Hn Hmx Hnone.
  split; [|by apply (change_pin_exhausted_without_blob w p sec old new st n mx)].
  intros Hn1 Hmx1.
  assert (Hpos : 0 < n - 1) by lia. assert (Hmxpos : 0 < mx - 1) by lia.
  destruct (secret_loaded_lookup sec w Hl) as (Hk & Hhk & Hsec).
  set (w1 := unlocked p (base_ecdsa sec) st n (JInt mx) sec old w).
  set (st1 := <["pin_attempts_left" := JInt mx]> (<["pin_attempts_left" := JInt (n - 1)]> st)).
  set (st2 := <["pin" := JStr (pin_tag (base_hmac sec) new)]> st1).
  pose proof (unlocked_secret_loaded p (base_ecdsa sec) st n (JInt mx) sec old w) as Hl1.
  destruct (secret_loaded_lookup sec _ Hl1) as (Hk1 & Hhk1 & Hsec1).
  exists (pin_set p (base_ecdsa sec) st1 mx (JInt mx) (base_hmac sec) sec new w1),
         (<["pin_attempts_left" := JInt mx]> st2).
  split.
  { unfold change_pin.
    step ltac:(apply (unlock_right w p old (base_ecdsa sec) st n (base_hmac sec) sec (JInt mx));
               assumption).
    step ltac:(reflexivity).
    rewrite unlocked_path, Hp.
    step ltac:(apply file_exists_missing; rewrite unlocked_other;
               [exact Hnone | apply path_neq; discriminate..]).
    step ltac:(reflexivity).
    step ltac:(apply (set_pin_ok _ p new (base_ecdsa sec) st1 mx (base_hmac sec) sec (JInt mx));
               [exact Hp | reflexivity | apply lookup_insert_eq
               | unfold st1; by rewrite !lookup_insert_ne | exact Hk1 | exact Hhk1
               | exact Hsec1 | exact Hmxpos]).
    reflexivity. }
  unfold pin_set. fold st2.
  split; [apply unlocked_state|].
  split; [rewrite lookup_insert_ne by done; apply lookup_insert_eq|].
  split; [apply lookup_insert_eq|].
  split; [reflexivity|].
  split; [apply unlocked_pin_keys|]. split; [apply unlocked_pin_keys|].
  intros q H1 H2. rewrite unlocked_other by done. cbn [persisted flash].
  rewrite saved_other by done. unfold w1. by apply unlocked_other.
Qed.

(** X20.  [change_pin(old, new)] on a blob whose signature does not verify
    under the keys of the old PIN raises the KeyStoreError of [verify_file],
    after [unlock(old)] went through: the PIN is still the old one and the
    blob is untouched, but the store is left open, with the counter back at
    the maximum. *)
Theorem change_pin_with_a_bad_blob {HS : SigLaws} {HJ : JsonLaws} (w : world)
    (p sec old new ct sigb sig : string) (st : gmap string jval) (n : Z) (vmax : jval) :
  path (self w) = p ->
  secret_loaded sec w ->
  state (self w) = Some st ->
  st !! "pin" = Some (JStr (pin_tag (base_hmac sec) old)) ->
  st !! "pin_attempts_left" = Some (JInt n) ->
  st !! "pin_attempts_max" = Some vmax ->
  0 < n - 1 ->
  flash w !! (p +:+ "/reckless") = Some ct ->
  flash w !! (p +:+ "/reckless.sig") = Some sigb ->
  sig_parse sigb = Ok sig ->
  ec_verify (ec_get_public_key (pin_ecdsa_of sec old)) sig (sha256 ct) = false ->
  exists w',
    change_pin old new w = (Raise (KeyStoreError "Signature is invalid!"), w')
    /\ state (self w') = Some (<["pin_attempts_left" := vmax]> st)
    /\ _is_locked (self w') = false
    /\ flash w' !! (p +:+ "/reckless") = Some ct
    /\ flash w' !! (p +:+ "/reckless.sig") = Some sigb.
Proof.
  intros Hp Hl Hst Htag Hn Hmx Hpos Hct Hsigb Hparse Hbad.
  destruct (secret_loaded_lookup sec w Hl) as (Hk & Hhk & Hsec).
  set (w1 := unlocked p (base_ecdsa sec) st n vmax sec old w).
  destruct (unlocked_pin_keys p (base_ecdsa sec) st n vmax sec old w) as [Ha1 Hkp1].
  assert (Hct1 : flash w1 !! (p +:+ "/reckless") = Some ct).
  { unfold w1. rewrite unlocked_other; [exact Hct | apply path_neq; discriminate..]. }
  assert (Hsig1 : flash w1 !! (p +:+ "/reckless.sig") = Some sigb).
  { unfold w1. rewrite unlocked_other; [exact Hsigb | apply path_neq; discriminate..]. }
  exists w1.
  split; [|split; [apply unlocked_state | split; [reflexivity | by split]]].
  unfold change_pin.
  step ltac:(apply (unlock_right w p old (base_ecdsa sec) st n (base_hmac sec) sec vmax);
             assumption).
  step ltac:(reflexivity).
  fold w1. change (path (self w1)) with (path (self w)). rewrite Hp.
  step ltac:(eapply file_exists_run; exact Hct1).
  eapply run_bind_raise.
  step ltac:(eapply keys_get_run; exact Hkp1).
  eapply run_bind_raise.
  apply (verify_file_invalid w1 (p +:+ "/reckless") ct sigb sig (pin_ecdsa_of sec old));
    [exact Hct1 | by rewrite reckless_sig_path | exact Hparse | exact Hbad].
Qed.

(** X21.  Failed attempts survive a power loss: after wrong PINs were
    entered (fewer than there were attempts), a new object over the same
    flash comes up from [init()] with the counter that was left, not with
    the maximum. *)
Theorem failed_attempts_survive_a_reboot {HS : SigLaws} {HJ : JsonLaws} (pins : list string)
    (w : world) (p sec rnd : string) (st : gmap string jval) (n mx : Z) (tag : jval) :
  path (self w) = p ->
  secret_loaded sec w ->
  flash w !! (p +:+ "/secret") = Some sec ->
  state (self w) = Some st ->
  st !! "pin_attempts_left" = Some (JInt n) ->
  st !! "pin_attempts_max" = Some (JInt mx) ->
  st !! "pin" = Some tag ->
  (0 < length pins)%nat ->
  Z.of_nat (length pins) < n ->
  Forall (fun x => JStr (pin_tag (base_hmac sec) x) ≠ tag) pins ->
  let fs := flash (attempts pins w).2 in
  init rnd {| self := __init__ p; flash := fs |}
    = (Ok tt,
       booted p sec (Some (<["pin_attempts_left" := JInt (n - Z.of_nat (length pins))]> st)) fs).
Proof.
  intros Hp Hl Hfile Hst Hn Hmx Htag Hpos Hlen Hall. cbv zeta.
  destruct (secret_loaded_lookup sec w Hl) as (Hk & Hhk & Hsec).
  rewrite (attempts_wrong pins w p (base_ecdsa sec) st n mx (base_hmac sec) tag) by done.
  cbn [snd].
  set (j := length pins) in *.
  destruct (failed_frame j p (base_ecdsa sec) st n w) as (_ & _ & _ & Hother).
  destruct (failed_pin_json j p (base_ecdsa sec) st n w Hpos) as [Hjson Hsig].
  set (fs := flash (failed j p (base_ecdsa sec) st n w)) in *.
  pose proof (init_existing rnd p sec
                (Some (<["pin_attempts_left" := JInt (n - Z.of_nat j)]> st))
                {| self := __init__ p; flash := fs |} eq_refl) as Hinit.
  cbn [self flash] in Hinit. apply Hinit; [|exact Hjson|exact Hsig].
  unfold fs. rewrite Hother; [exact Hfile | apply path_neq; discriminate..].
Qed.



End more_properties.

(** * The reference instance keeps the contracts *)

Lemma string_drop_append (k d : string) :
  Toy.string_drop (String.length k) (k +:+ d) = d.
Proof. induction k as [|c k IH]; [done|]. rewrite append_cons. exact IH. Qed.

Lemma digits_pos_digits (q : positive) : Toy.digits_pos (Toy.pos_digits q) = Some q.
Proof. induction q as [q IH|q IH|]; simpl; [by rewrite IH..|done]. Qed.

Lemma pos_digits_text (q : positive) : Toy.t_utf8_valid (Toy.pos_digits q) = true.
Proof. induction q as [q IH|q IH|]; simpl; done. Qed.

Lemma toy_sig_laws : @SigLaws Toy.toy.
Proof.
  split.
  - intros k h. by apply bool_decide_eq_true.
  - intros sig. cbv [sig_parse sig_serialize Toy.toy Toy.t_sig_parse Toy.t_sig_serialize].
    by rewrite prefix_app.
Qed.

Lemma toy_json_laws : @JsonLaws Toy.toy.
Proof.
  split.
  - intros d. unfold json_loads, json_dumps. simpl. unfold Toy.t_json_loads, Toy.t_json_dumps.
    rewrite digits_pos_digits. simpl. by rewrite decode_encode.
  - intros d. apply pos_digits_text.
Qed.

Lemma toy_cipher_laws : @CipherLaws Toy.toy.
Proof. split. intros d k. apply string_drop_append. Qed.

(** The keys of a secret are in [self.keys] when adding them changes
    nothing. *)
Lemma secret_loaded_by_union `{Collaborators} (sec : string) (w : world) :
  derive_keys sec None ∪ keys (self w) = keys (self w) -> secret_loaded sec w.
Proof. intros Heq. unfold secret_loaded. rewrite <- Heq. apply map_union_subseteq_l. Qed.

(** * The theorems at work on the reference instance *)

Import Toy.
#[local] Existing Instance toy.

(** C7 at work: a payload written and signed on the empty flash reads
    back. *)
Lemma verify_file_after_sign_to_file_witness :
  verify_file "/f" (Some (KPriv k0))
    ((file_write "/f" "payload";; sign_to_file "payload" ("/f" +:+ ".sig") (Some (KPriv k0))) w_new).2
  = (Ok "payload",
     ((file_write "/f" "payload";; sign_to_file "payload" ("/f" +:+ ".sig") (Some (KPriv k0))) w_new).2).
Proof.
  exact (proj2 (proj1 (verify_file_after_sign_to_file (C := toy) (HS := toy_sig_laws)
                         w_new "payload" "/f" k0))).
Defined.

(** C8 at work: the word for the fragment "12" on the store after its first
    boot. *)
Lemma get_auth_word_index_witness :
  get_auth_word "12" w_init = (Ok "w1320", w_init)
  /\ get_auth_word "12" (with_pin_state None false w_init)
     = (Ok "w1320", with_pin_state None false w_init).
Proof.
  destruct (get_auth_word_index (C := toy) w_init rnd0 "12") as (word & Hword & Hrun & Hany).
  - apply secret_loaded_by_union. vm_compute. reflexivity.
  - vm_compute. reflexivity.
  - assert (word = "w1320") as -> by (vm_compute in Hword; congruence).
    split; [exact Hrun | apply Hany].
Defined.

(** C2 at work: a wrong PIN on the locked store with the PIN 1234. *)
Lemma unlock_wrong_pin_keeps_decrement_witness :
  unlock "0000" w_locked
  = (Raise (PinError ("Invalid PIN!" +:+ nl +:+ "9 of 10 attempts left...")),
     decremented p0 k0 (state_of w_locked) 10 w_locked).
Proof.
  refine (proj1 (unlock_wrong_pin_keeps_decrement (C := toy)
                   (HS := toy_sig_laws) (HJ := toy_json_laws)
                   w_locked p0 "0000" k0 (state_of w_locked) 10 10 hk0
                   (JStr (pin_tag hk0 "1234")) _ _ _ _ _ _ _ _ _));
    try (vm_compute; reflexivity).
  vm_compute. discriminate.
Defined.

(** C4 at work: the right PIN on the locked store with the PIN 1234, after
    a wrong one. *)
Lemma unlock_right_pin_resets_witness :
  exists w',
    unlock "1234" (unlock "0000" w_locked).2 = (Ok tt, w')
    /\ state (self w') = Some (<["pin_attempts_left" := JInt 10]> (state_of w_locked))
    /\ _is_locked (self w') = false.
Proof.
  destruct (unlock_right_pin_resets (C := toy)
              (HS := toy_sig_laws) (HJ := toy_json_laws)
              (unlock "0000" w_locked).2 p0 "1234" k0
              (state_of (unlock "0000" w_locked).2) 9 hk0 rnd0 (JInt 10))
    as (w' & Hrun & Hst & _ & Hlk & _); [vm_compute; reflexivity.. | ].
  exists w'. split; [exact Hrun|]. split; [|exact Hlk].
  rewrite Hst. vm_compute. reflexivity.
Defined.


(** C3 at work: ten wrong PINs on the locked store with the PIN 1234. *)
Lemma wrong_pins_wipe_on_the_last_witness :
  exists w',
    attempts (["0"; "1"; "2"; "3"; "4"; "5"; "6"; "7"; "8"] ++ ["9"]) w_locked
      = ([Raise (PinError ("Invalid PIN!" +:+ nl +:+ "9 of 10 attempts left..."));
          Raise (PinError ("Invalid PIN!" +:+ nl +:+ "8 of 10 attempts left..."));
          Raise (PinError ("Invalid PIN!" +:+ nl +:+ "7 of 10 attempts left..."));
          Raise (PinError ("Invalid PIN!" +:+ nl +:+ "6 of 10 attempts left..."));
          Raise (PinError ("Invalid PIN!" +:+ nl +:+ "5 of 10 attempts left..."));
          Raise (PinError ("Invalid PIN!" +:+ nl +:+ "4 of 10 attempts left..."));
          Raise (PinError ("Invalid PIN!" +:+ nl +:+ "3 of 10 attempts left..."));
          Raise (PinError ("Invalid PIN!" +:+ nl +:+ "2 of 10 attempts left..."));
          Raise (PinError ("Invalid PIN!" +:+ nl +:+ "1 of 10 attempts left..."));
          Raise (CriticalErrorWipeImmediately ("No more PIN attempts!" +:+ nl +:+ "Wipe!"))],
         w')
    /\ forall name, flash w' !! (p0 +:+ "/" +:+ name) = None.
Proof.
  destruct (wrong_pins_wipe_on_the_last (C := toy)
              (HS := toy_sig_laws) (HJ := toy_json_laws)
              w_locked p0 k0 (state_of w_locked) 10 hk0 (pin_tag hk0 "1234")
              ["0"; "1"; "2"; "3"; "4"; "5"; "6"; "7"; "8"] "9")
    as [_ (w' & Hrun & Hgone)]; [vm_compute; reflexivity.. | | ].
  - cbn [app]. repeat (constructor; [vm_compute; discriminate|]). constructor.
  - exists w'. split; [|exact Hgone].
    etrans; [exact Hrun|]. f_equal.
Defined.

(** C9 at work: ten calls of [unlock] on the store after its first boot,
    where no PIN is set. *)
Lemma unlock_without_pin_counts_down_witness :
  unlock "1234" w_init
    = (Raise (PinError ("Invalid PIN!" +:+ nl +:+ "9 of 10 attempts left...")),
       decremented p0 k0 default_state 10 w_init)
  /\ exists w',
       attempts (["0"; "1"; "2"; "3"; "4"; "5"; "6"; "7"; "8"] ++ ["9"]) w_init
         = (map (pin_error 10 10) (seq 1 9) ++ [no_more_attempts], w')
       /\ forall name, flash w' !! (p0 +:+ "/" +:+ name) = None.
Proof.
  destruct (unlock_without_pin_counts_down (C := toy)
              (HS := toy_sig_laws) (HJ := toy_json_laws)
              w_init p0 k0 default_state 10 10 hk0) as (Hone & Hmany & _);
    [vm_compute; reflexivity.. | ].
  split.
  - apply Hone. lia.
  - apply (Hmany ["0"; "1"; "2"; "3"; "4"; "5"; "6"; "7"; "8"] "9"); reflexivity.
Defined.

(** C10 at work: with the faulty signature engine the self-check of
    [save_state] fails, and [save_state] and [unlock] wipe. *)
Lemma save_state_rereads_witness :
  let written st :=
    {| self := set_state st (self w_faulty); flash := saved (H := faulty) p0 k0 st (flash w_faulty) |} in
  save_state (H := faulty) w_faulty
    = (Raise (CriticalErrorWipeImmediately (wiped_msg (KeyStoreError "Signature is invalid!"))),
       wiped p0 (written (Some default_state)))
  /\ unlock (H := faulty) "1234" w_faulty
     = (Raise (CriticalErrorWipeImmediately (wiped_msg (KeyStoreError "Signature is invalid!"))),
        wiped p0 (written (Some (<["pin_attempts_left" := JInt 9]> default_state)))).
Proof.
  destruct (save_state_rereads (C := faulty) w_faulty p0 k0) as (_ & Hsave & _ & Hunlock & _);
    [vm_compute; reflexivity.. | ].
  split.
  - eapply Hsave. vm_compute. reflexivity.
  - eapply (Hunlock "1234" default_state 10); try (vm_compute; reflexivity).
Defined.



(** C5 at work: the PIN of the saved store changed from 1234 to 4321, with
    ten attempts left and with one. *)
Lemma change_pin_rekeys_the_blob_witness :
  (exists w1 w2 w3,
     change_pin "1234" "4321" w_saved_locked = (Ok tt, w1)
     /\ unlock "4321" w1 = (Ok tt, w2)
     /\ load w2 = (Ok tt, w3)
     /\ mnemonic (self w3) = Some m0
     /\ exists w4,
          unlock "1234" w1
            = (Raise (PinError ("Invalid PIN!" +:+ nl +:+ "9 of 10 attempts left...")), w4))
  /\ (exists w',
        change_pin "1234" "4321" w_saved_last
          = (Raise (CriticalErrorWipeImmediately ("No more PIN attempts!" +:+ nl +:+ "Wipe!")),
             w')
        /\ forall name, flash w' !! (p0 +:+ "/" +:+ name) = None).
Proof.
  split.
  - destruct (change_pin_rekeys_the_blob (C := toy)
                (HS := toy_sig_laws) (HJ := toy_json_laws) (HC := toy_cipher_laws)
                w_saved_locked p0 rnd0 "1234" "4321" m0 (state_of w_saved_locked) 10 10)
      as [Hrekey _];
      [first [apply secret_loaded_by_union; vm_compute; reflexivity
             | vm_compute; reflexivity].. | ].
    destruct Hrekey as (w1 & Hch & _ & _ & (w2 & w3 & Hu & Hl & Hm) & Hold); [lia | lia | ].
    destruct Hold as [w4 Hw4]; [vm_compute; discriminate|].
    exists w1, w2, w3. split; [exact Hch|]. split; [exact Hu|]. split; [exact Hl|].
    split; [exact Hm|]. exists w4. exact Hw4.
  - destruct (change_pin_rekeys_the_blob (C := toy)
                (HS := toy_sig_laws) (HJ := toy_json_laws) (HC := toy_cipher_laws)
                w_saved_last p0 rnd0 "1234" "4321" m0 (state_of w_saved_last) 1 10)
      as [_ Hwipe];
      [first [apply secret_loaded_by_union; vm_compute; reflexivity
             | vm_compute; reflexivity].. | ].
    apply Hwipe. left. lia.
Defined.

(** C5 as stated fails: the saved store holds a mnemonic and [1234] is its
    PIN, but one attempt is left.  [change_pin("1234", "4321")] with the
    right old PIN does not re-key the blob: its [unlock("1234")] decrements
    the counter to zero, wipes the store and raises the fatal error.  The
    blob and the secret are gone, and neither [unlock("4321")] nor [load()]
    brings the mnemonic back. *)
Lemma change_pin_on_the_last_attempt_wipes :
  state_of w_saved_last !! "pin" = Some (JStr (pin_tag hk0 "1234"))
  /\ state_of w_saved_last !! "pin_attempts_left" = Some (JInt 1)
  /\ flash w_saved_last !! "/flash/keystore/reckless"
     = Some (encrypt m0 (pin_aes_of rnd0 "1234"))
  /\ (change_pin "1234" "4321" w_saved_last).1
     = Raise (CriticalErrorWipeImmediately ("No more PIN attempts!" +:+ nl +:+ "Wipe!"))
  /\ flash (change_pin "1234" "4321" w_saved_last).2 !! "/flash/keystore/reckless" = None
  /\ flash (change_pin "1234" "4321" w_saved_last).2 !! "/flash/keystore/secret" = None
  /\ (unlock "4321" (change_pin "1234" "4321" w_saved_last).2).1
     = Raise (CriticalErrorWipeImmediately ("No more PIN attempts!" +:+ nl +:+ "Wipe!"))
  /\ (load (change_pin "1234" "4321" w_saved_last).2).1
     = Raise (KeyStoreError "Keystore is locked").
Proof.
  split; [|split; [|split; [|split; [|split; [|split; [|split]]]]]]; vm_compute; reflexivity.
Qed.

(** * The further properties at work on the reference instance *)

Import ToyStores.
#[local] Existing Instance toy_derivation.

(** Discharge a premise about a concrete store by evaluation. *)
Ltac by_run :=
  first [ apply secret_loaded_by_union; vm_compute; reflexivity
        | vm_compute; reflexivity
        | vm_compute; discriminate
        | lia
        | simpl; lia
        | left; reflexivity
        | right; vm_compute; reflexivity ].

(** X1 at work: the saved store, locked. *)
Lemma locked_store_hands_out_nothing_witness :
  save w_saved_locked = (Raise (KeyStoreError "Keystore is locked"), w_saved_locked)
  /\ load w_saved_locked = (Raise (KeyStoreError "Keystore is locked"), w_saved_locked)
  /\ get_xpub "m/84h/0h/0h" w_saved_locked
     = (Raise (KeyStoreError "Keystore is not ready"), w_saved_locked)
  /\ is_ready w_saved_locked = (Ok false, w_saved_locked).
Proof.
  apply (locked_store_hands_out_nothing (C := toy) (D := toy_derivation)
           w_saved_locked (state_of w_saved_locked) tag0 "m/84h/0h/0h"); by_run.
Defined.

(** X2 at work: [lock()] on the open store with the PIN 1234, and on the
    store without a PIN. *)
Lemma lock_sets_the_flag_only_witness :
  (exists w', lock w_pin = (Ok (bool_decide (tag0 ≠ JNull)), w')
              /\ keys (self w') = keys (self w_pin))
  /\ (exists w', lock w_init = (Ok (bool_decide (JNull ≠ JNull)), w')
                 /\ is_locked w' = (Ok (bool_decide (JNull ≠ JNull)), w')).
Proof.
  split.
  - destruct (lock_sets_the_flag_only w_pin (state_of w_pin) tag0)
      as (w' & Hl & _ & _ & Hk & _); [by_run.. | ].
    exists w'. split; [exact Hl | exact Hk].
  - destruct (lock_sets_the_flag_only w_init (state_of w_init) JNull)
      as (w' & Hl & Hlk & _); [by_run.. | ].
    exists w'. split; [exact Hl | exact Hlk].
Defined.

(** X3 at work: the right PIN on the store after nine wrong ones. *)
Lemma unlock_last_attempt_is_lost_witness :
  exists w',
    unlock "1234" w_nine_wrong = (no_more_attempts, w')
    /\ forall name, flash w' !! (p0 +:+ "/" +:+ name) = None.
Proof.
  destruct (unlock_last_attempt_is_lost (C := toy) (HS := toy_sig_laws) (HJ := toy_json_laws)
              w_nine_wrong p0 "1234" k0 (state_of w_nine_wrong) 1 hk0)
    as (w' & Hrun & Hgone & _); [by_run.. | ].
  exists w'. split; [exact Hrun | exact Hgone].
Defined.

(** X4 at work: a new PIN on the locked store, without the old one. *)
Lemma set_pin_asks_no_old_pin_witness :
  exists w',
    is_locked w_locked = (Ok true, w_locked)
    /\ set_pin "9999" w_locked = (Ok tt, w')
    /\ is_locked w' = (Ok false, w').
Proof.
  destruct (set_pin_asks_no_old_pin (C := toy) (HS := toy_sig_laws) (HJ := toy_json_laws)
              w_locked p0 rnd0 "9999" (state_of w_locked) 10 (JInt 10))
    as (w' & Hrun & _ & Hopen & _); [by_run.. | ].
  exists w'. split; [vm_compute; reflexivity|]. split; [exact Hrun | exact Hopen].
Defined.

(** X5 at work: setting a PIN on the store with one attempt left. *)
Lemma set_pin_on_the_last_attempt_wipes_witness :
  exists w',
    set_pin "1234" w_nine_wrong = (no_more_attempts, w')
    /\ forall name, flash w' !! (p0 +:+ "/" +:+ name) = None.
Proof.
  destruct (set_pin_on_the_last_attempt_wipes (C := toy) (HS := toy_sig_laws)
              (HJ := toy_json_laws) w_nine_wrong p0 "1234" k0 hk0 (state_of w_nine_wrong) 1)
    as (w' & Hrun & Hgone & _); [by_run.. | ].
  exists w'. split; [exact Hrun | exact Hgone].
Defined.

(** X6 at work: [unset_pin()] on the locked store. *)
Lemma unset_pin_opens_the_store_witness :
  exists w',
    is_locked w_locked = (Ok true, w_locked)
    /\ unset_pin w_locked = (Ok tt, w')
    /\ is_locked w' = (Ok false, w')
    /\ _is_locked (self w') = _is_locked (self w_locked).
Proof.
  destruct (unset_pin_opens_the_store (C := toy) (HS := toy_sig_laws) (HJ := toy_json_laws)
              w_locked p0 k0 (state_of w_locked))
    as (w' & Hrun & _ & _ & Hopen & Hflag & _); [by_run.. | ].
  exists w'. split; [vm_compute; reflexivity|].
  split; [exact Hrun | split; [exact Hopen | exact Hflag]].
Defined.

(** X7 at work: the locked store comes up locked after a power loss, with
    the state that was saved, whatever the generator would return. *)
Lemma init_reloads_the_saved_state_witness :
  init "ffffffffffffffffffffffffffffffff" (reboot w_locked)
    = (Ok tt, booted p0 rnd0 (Some (state_of w_locked)) (flash w_locked))
  /\ is_locked (booted p0 rnd0 (Some (state_of w_locked)) (flash w_locked))
     = (Ok (bool_decide (tag0 ≠ JNull)), booted p0 rnd0 (Some (state_of w_locked)) (flash w_locked)).
Proof.
  destruct (init_reloads_the_saved_state (C := toy) (HS := toy_sig_laws) (HJ := toy_json_laws)
              "ffffffffffffffffffffffffffffffff" p0 rnd0 (state_of w_locked) tag0
              (flash w_locked))
    as (Hinit & Hlk & _); [by_run.. | ].
  split; [exact Hinit | exact Hlk].
Defined.

(** X8 at work: a boot over a [pin.json] that was tampered with. *)
Lemma init_fails_only_fatally_witness :
  init rnd0 (reboot w_bad_pin_file)
    = (Raise (CriticalErrorWipeImmediately (wiped_msg (KeyStoreError "Signature is invalid!"))),
       (init rnd0 (reboot w_bad_pin_file)).2)
  /\ forall name,
       flash (init rnd0 (reboot w_bad_pin_file)).2 !! (path (self (reboot w_bad_pin_file)) +:+ "/" +:+ name)
       = None.
Proof.
  assert (Hrun : init rnd0 (reboot w_bad_pin_file)
                 = (Raise (CriticalErrorWipeImmediately
                             (wiped_msg (KeyStoreError "Signature is invalid!"))),
                    (init rnd0 (reboot w_bad_pin_file)).2)) by (vm_compute; reflexivity).
  split; [exact Hrun|].
  exact (proj2 (init_fails_only_fatally (C := toy) rnd0 (reboot w_bad_pin_file) _ _ Hrun)).
Defined.

(** X9 at work: a boot of the saved store after its [secret] file was
    lost: the PIN is gone, the blob is still there. *)
Lemma init_without_secret_provisions_witness :
  exists w',
    init "fedcba9876543210fedcba9876543210" w_lost_secret = (Ok tt, w')
    /\ state (self w') = Some default_state
    /\ is_locked w' = (Ok false, w')
    /\ flash w' !! (p0 +:+ "/reckless") = flash w_lost_secret !! (p0 +:+ "/reckless").
Proof.
  destruct (init_without_secret_provisions (C := toy) (HS := toy_sig_laws)
              (HJ := toy_json_laws) "fedcba9876543210fedcba9876543210" p0 w_lost_secret)
    as (w' & Hrun & _ & _ & Hst & Hopen & _ & Hframe); [by_run.. | ].
  exists w'. split; [exact Hrun|]. split; [exact Hst|]. split; [exact Hopen|].
  apply Hframe; apply path_neq; discriminate.
Defined.

(** X10 at work: [save()] on the store without a PIN, and [load()] after
    the PIN was removed and the device rebooted. *)
Lemma reckless_storage_needs_the_pin_keys_witness :
  save w_mnemonic = (Raise (KeyError "pin_aes"), w_mnemonic)
  /\ load w_unpinned = (Raise (KeyError "pin_ecdsa"), w_unpinned).
Proof.
  split.
  - destruct (reckless_storage_needs_the_pin_keys (C := toy) w_mnemonic p0
                (state_of w_mnemonic) JNull) as [Hsave _]; [by_run.. | ].
    apply (Hsave m0); by_run.
  - destruct (reckless_storage_needs_the_pin_keys (C := toy) w_unpinned p0
                (state_of w_unpinned) JNull) as [_ Hload]; [by_run.. | ].
    apply (Hload ct0); by_run.
Defined.


(** X12 at work: a blank phrase on the saved store. *)
Lemma rejected_mnemonic_stays_and_is_saved_witness :
  exists w1 w2,
    load_mnemonic (Some "  ") "" w_saved = (Raise (KeyStoreError "Invalid mnemonic"), w1)
    /\ mnemonic (self w1) = Some (strip "  ")
    /\ root (self w1) = root (self w_saved)
    /\ save w1 = (Raise (KeyStoreError "Invalid mnemonic"), w2)
    /\ flash w2 !! (p0 +:+ "/reckless") = Some (encrypt (strip "  ") a0).
Proof.
  destruct (rejected_mnemonic_stays_and_is_saved (C := toy) (HS := toy_sig_laws)
              (HC := toy_cipher_laws) w_saved "  " "")
    as (w1 & Hrun & Hm & Hroot & _ & _ & _ & Hsave); [by_run | ].
  destruct (Hsave p0 (state_of w_saved) tag0 a0 kp0) as (w2 & Hrun2 & Hct & _); [by_run.. | ].
  exists w1, w2. split; [exact Hrun|]. split; [exact Hm|]. split; [exact Hroot|].
  split; [exact Hrun2 | exact Hct].
Defined.

(** X13 at work: [delete_saved()] on the saved store, locked. *)
Lemma delete_saved_removes_the_blob_witness :
  is_locked w_saved_locked = (Ok true, w_saved_locked)
  /\ delete_saved w_saved_locked = (Ok tt, blob_deleted p0 w_saved_locked)
  /\ delete_saved (blob_deleted p0 w_saved_locked)
     = (Raise (KeyStoreError "Secret is not saved. No need to delete anything."),
        blob_deleted p0 w_saved_locked).
Proof.
  destruct (delete_saved_removes_the_blob w_saved_locked p0 ct0
              (sig_serialize (ec_sign kp0 (sha256 ct0))))
    as (Hrun & _ & _ & _ & _ & Hagain & _); [by_run.. | ].
  split; [vm_compute; reflexivity|]. split; [exact Hrun | exact Hagain].
Defined.

(** X14 at work: [delete_saved()] on the store without a blob, and on the
    saved store whose signature file is missing. *)
Lemma delete_saved_failures_witness :
  delete_saved w_init
    = (Raise (KeyStoreError "Secret is not saved. No need to delete anything."), w_init)
  /\ delete_saved w_no_sig
     = (Raise (KeyStoreError "Failed to delete from memory"),
        {| self := self w_no_sig; flash := delete (p0 +:+ "/reckless") (flash w_no_sig) |}).
Proof.
  split.
  - destruct (delete_saved_failures w_init p0) as [Hnone _]; [by_run|].
    apply Hnone. by_run.
  - destruct (delete_saved_failures w_no_sig p0) as [_ Hsig]; [by_run|].
    apply (Hsig ct0); by_run.
Defined.

(** X15 at work: a wallet file signed and verified with the default key,
    before and after a mnemonic is loaded. *)
Lemma idkey_is_the_default_key_witness :
  sign_to_file "wallet" "/sd/wallet.json" None w_init
    = (Raise (KeyStoreError "Pass the key please"), w_init)
  /\ exists w1 w2,
       load_mnemonic (Some m0) "" w_init = (Ok tt, w1)
       /\ (file_write "/sd/wallet.json" "wallet";;
           sign_to_file "wallet" ("/sd/wallet.json" +:+ ".sig") None) w1 = (Ok tt, w2)
       /\ verify_file "/sd/wallet.json" None w2 = (Ok "wallet", w2).
Proof.
  destruct (idkey_is_the_default_key (C := toy) (HS := toy_sig_laws) w_init "wallet"
              "/sd/wallet.json") as [Hnone Hsome].
  split; [apply Hnone; by_run|].
  destruct (Hsome m0 "") as (w1 & w2 & Hload & Hsign & _ & Hver); [by_run|].
  exists w1, w2. split; [exact Hload | split; [exact Hsign | exact Hver]].
Defined.

(** X16 at work: the blob of the saved store read under the key of its
    PIN. *)
Lemma verify_file_returns_only_signed_data_witness :
  (verify_file (p0 +:+ "/reckless") (Some (KPriv kp0)) w_saved).2 = w_saved
  /\ flash w_saved !! (p0 +:+ "/reckless") = Some ct0
  /\ exists k sigb sig,
       key_or_idkey (Some (KPriv kp0)) (self w_saved) = Some (KPriv k)
       /\ flash w_saved !! ((p0 +:+ "/reckless") +:+ ".sig") = Some sigb
       /\ sig_parse sigb = Ok sig
       /\ ec_verify (ec_get_public_key k) sig (sha256 ct0) = true.
Proof.
  destruct (verify_file_returns_only_signed_data (C := toy) w_saved (p0 +:+ "/reckless")
              (Some (KPriv kp0))) as [Hsame Hsound].
  split; [exact Hsame|]. apply Hsound. vm_compute. reflexivity.
Defined.

(** X17 at work: two wrong PINs and then the right one, on the locked
    store. *)
Lemma right_pin_after_wrong_ones_witness :
  exists w',
    attempts (["0000"; "1111"] ++ ["1234"]) w_locked
      = ([Raise (PinError ("Invalid PIN!" +:+ nl +:+ "9 of 10 attempts left..."));
          Raise (PinError ("Invalid PIN!" +:+ nl +:+ "8 of 10 attempts left..."));
          Ok tt], w')
    /\ state (self w') = Some (<["pin_attempts_left" := JInt 10]> (state_of w_locked))
    /\ _is_locked (self w') = false.
Proof.
  destruct (right_pin_after_wrong_ones (C := toy) (HS := toy_sig_laws) (HJ := toy_json_laws)
              ["0000"; "1111"] "1234" w_locked p0 rnd0 (state_of w_locked) 10 10)
    as (w' & Hrun & Hst & Hlk & _); [by_run.. | | ].
  - repeat (constructor; [vm_compute; discriminate|]). constructor.
  - exists w'. split; [|split; [exact Hst | exact Hlk]].
    etrans; [exact Hrun|]. f_equal.
Defined.


(** X19 at work: the PIN of the locked store, which has no blob, changed
    from 1234 to 4321; and the same after nine wrong PINs. *)
Lemma change_pin_without_a_blob_witness :
  (exists w' st',
     change_pin "1234" "4321" w_locked = (Ok tt, w')
     /\ state (self w') = Some st'
     /\ st' !! "pin" = Some (JStr (pin_tag (base_hmac rnd0) "4321"))
     /\ flash w' !! (p0 +:+ "/reckless") = flash w_locked !! (p0 +:+ "/reckless"))
  /\ (exists w',
        change_pin "1234" "4321" w_nine_wrong
          = (Raise (CriticalErrorWipeImmediately ("No more PIN attempts!" +:+ nl +:+ "Wipe!")),
             w')
        /\ forall name, flash w' !! (p0 +:+ "/" +:+ name) = None).
Proof.
  split.
  - destruct (change_pin_without_a_blob (C := toy) (HS := toy_sig_laws) (HJ := toy_json_laws)
                w_locked p0 rnd0 "1234" "4321" (state_of w_locked) 10 10)
      as [Hchange _]; [by_run.. | ].
    destruct Hchange as (w' & st' & Hrun & Hst & Hpin & _ & _ & _ & _ & Hframe); [lia | lia | ].
    exists w', st'. split; [exact Hrun|]. split; [exact Hst|]. split; [exact Hpin|].
    apply Hframe; apply path_neq; discriminate.
  - destruct (change_pin_without_a_blob (C := toy) (HS := toy_sig_laws) (HJ := toy_json_laws)
                w_nine_wrong p0 rnd0 "1234" "4321" (state_of w_nine_wrong) 1 10)
      as [_ Hwipe]; [by_run.. | ].
    apply Hwipe. left. lia.
Defined.

(** X20 at work: [change_pin] on the saved store whose blob was tampered
    with. *)
Lemma change_pin_with_a_bad_blob_witness :
  exists w',
    change_pin "1234" "4321" (lock w_tampered).2
      = (Raise (KeyStoreError "Signature is invalid!"), w')
    /\ state (self w')
       = Some (<["pin_attempts_left" := JInt 10]> (state_of (lock w_tampered).2))
    /\ _is_locked (self w') = false.
Proof.
  destruct (change_pin_with_a_bad_blob (C := toy) (HS := toy_sig_laws) (HJ := toy_json_laws)
              (lock w_tampered).2 p0 rnd0 "1234" "4321" "garbage"
              (sig_serialize (ec_sign kp0 (sha256 ct0))) (ec_sign kp0 (sha256 ct0))
              (state_of (lock w_tampered).2) 10 (JInt 10))
    as (w' & Hrun & Hst & Hlk & _); [by_run.. | ].
  exists w'. split; [exact Hrun | split; [exact Hst | exact Hlk]].
Defined.

(** X21 at work: three wrong PINs on the locked store, then a power
    loss. *)
Lemma failed_attempts_survive_a_reboot_witness :
  init "ffffffffffffffffffffffffffffffff" (reboot w_three_wrong)
    = (Ok tt,
       booted p0 rnd0
         (Some (<["pin_attempts_left" := JInt (10 - Z.of_nat (length ["0000"; "1111"; "2222"]))]>
                  (state_of w_locked)))
         (flash w_three_wrong)).
Proof.
  apply (failed_attempts_survive_a_reboot (C := toy) (HS := toy_sig_laws) (HJ := toy_json_laws)
           ["0000"; "1111"; "2222"] w_locked p0 rnd0 "ffffffffffffffffffffffffffffffff"
           (state_of w_locked) 10 10 tag0);
    [by_run.. | ].
  repeat (constructor; [vm_compute; discriminate|]). constructor.
Defined.


